(** * The metric extraction and normalisation engine of the benchmark collector

    A shallow embedding of [BenchRepo] from [src/da/rms/git/git.py] and the
    properties of its record pipeline: type casting, derived-metric
    evaluation, pattern filters, per-file record building, the watermark,
    axis-combination pruning and the accumulation operator. *)

From Stdlib Require Import QArith Qcanon Ascii.
From stdpp Require Import gmap strings list pretty numbers sorting.

Open Scope string_scope.

(** ** Python exceptions and the error monad *)

Inductive exn :=
  | SyntaxError
  | KeyError
  | TypeError
  | ValueError
  | IndexError
  | AttributeError
  | ZeroDivisionError
  | ParserError
  | ReError
  | UnsafeEval.   (* [raise Exception("UnsafeEval")]: a bare [Exception] *)

Inductive result (A : Type) :=
  | Ok (a : A)
  | Raise (e : exn).
Arguments Ok {A} a.
Arguments Raise {A} e.

#[global] Instance exn_eq_dec : EqDecision exn.
Proof. solve_decision. Defined.

Definition rbind {A C} (m : result A) (f : A -> result C) : result C :=
  match m with
  | Ok a => f a
  | Raise e => Raise e
  end.

Declare Scope result_scope.
Delimit Scope result_scope with result.
Notation "x ← y ; z" := (rbind y (fun x => z))
  (at level 20, y at level 100, z at level 200, only parsing) : result_scope.
Notation "' x ← y ; z" := (rbind y (fun x => z))
  (at level 20, x pattern, y at level 100, z at level 200, only parsing) : result_scope.
Open Scope result_scope.

(** [try: m except e: h] *)
Definition try_except {A} (m : result A) (e : exn) (h : result A) : result A :=
  match m with
  | Ok a => Ok a
  | Raise e' => if decide (e' = e) then h else Raise e'
  end.

(** [try: m except (e1, e2): h] *)
Definition try_except2 {A} (m : result A) (e1 e2 : exn) (h : result A) : result A :=
  match m with
  | Ok a => Ok a
  | Raise e' => if decide (e' = e1) then h else if decide (e' = e2) then h else Raise e'
  end.

Definition is_ok {A} (m : result A) : bool :=
  match m with Ok _ => true | Raise _ => false end.

(** Monadic loops over a Python list. *)
Fixpoint mapM {A C} (f : A -> result C) (l : list A) : result (list C) :=
  match l with
  | [] => Ok []
  | x :: r => y ← f x; ys ← mapM f r; Ok (y :: ys)
  end.

Fixpoint foldM {A S} (f : S -> A -> result S) (s : S) (l : list A) : result S :=
  match l with
  | [] => Ok s
  | x :: r => s' ← f s x; foldM f s' r
  end.

(** ** Python scalars

    A float is represented by the rational it denotes (comparisons between
    [int], [bool] and [float] are exact in Python); [nan] and the infinities
    are left out.  Float arithmetic itself is a builtin (see [builtins]). *)

Inductive pyval :=
  | VNone
  | VBool (b : bool)
  | VInt (z : Z)
  | VFloat (q : Qc)
  | VStr (s : string).

#[global] Instance pyval_eq_dec : EqDecision pyval.
Proof. solve_decision. Defined.

Definition num_of (v : pyval) : option Qc :=
  match v with
  | VBool b => Some (Qc_of_Z (if b then 1 else 0))
  | VInt z => Some (Qc_of_Z z)
  | VFloat q => Some q
  | VNone | VStr _ => None
  end.

(** [a == b] *)
Definition py_eqb (a b : pyval) : bool :=
  match num_of a, num_of b with
  | Some x, Some y => bool_decide (x = y)
  | None, None =>
      match a, b with
      | VNone, VNone => true
      | VStr s, VStr t => bool_decide (s = t)
      | _, _ => false
      end
  | _, _ => false
  end.

(** [a < b]; ordering [None] or a string against a number is a [TypeError]. *)
Definition py_lt (a b : pyval) : result bool :=
  match num_of a, num_of b with
  | Some x, Some y => Ok (bool_decide (x < y)%Qc)
  | None, None =>
      match a, b with
      | VStr s, VStr t => Ok (String.ltb s t)
      | _, _ => Raise TypeError
      end
  | _, _ => Raise TypeError
  end.

(** [bool(v)] *)
Definition py_truthy (v : pyval) : bool :=
  match v with
  | VNone => false
  | VBool b => b
  | VInt z => negb (z =? 0)%Z
  | VFloat q => negb (bool_decide (q = 0%Qc))
  | VStr s => negb (bool_decide (s = ""))
  end.

(** ** Strings

    A character of a string is a code point below 256: the strings of the
    model are the Python strings of the Latin-1 range.  On that range the
    white space, the digits and the case mapping below are those of Python's
    [str]: [chr(n).isspace()], [chr(n).isdigit()] and [chr(n).lower()]. *)

(** [c in s] for a character [c] *)
Fixpoint in_string (c : ascii) (s : string) : bool :=
  match s with
  | EmptyString => false
  | String d r => bool_decide (c = d) || in_string c r
  end.

Fixpoint str_all (p : ascii -> bool) (s : string) : bool :=
  match s with
  | EmptyString => true
  | String c r => p c && str_all p r
  end.

(** [c.lower()]: the letters [A]-[Z], and the letters 192-222 but for the
    multiplication sign 215, have their lower case 32 code points above. *)
Definition lower_char (c : ascii) : ascii :=
  let n := nat_of_ascii c in
  if ((65 <=? n)%nat && (n <=? 90)%nat)
     || ((192 <=? n)%nat && (n <=? 222)%nat && negb (n =? 215)%nat)
  then ascii_of_nat (n + 32) else c.

(** [s.lower()] *)
Fixpoint lower (s : string) : string :=
  match s with
  | EmptyString => EmptyString
  | String c r => String (lower_char c) (lower r)
  end.

(** [c.isspace()]: the characters that [strip] removes.  They are the
    controls 9-13 and 28-31, the space 32, the next line 133 and the
    no-break space 160. *)
Definition is_ws (c : ascii) : bool :=
  let n := nat_of_ascii c in
  ((9 <=? n)%nat && (n <=? 13)%nat) || ((28 <=? n)%nat && (n <=? 32)%nat)
  || (n =? 133)%nat || (n =? 160)%nat.

(** [s.lstrip()] and [s.rstrip()] *)

Fixpoint lstrip (s : string) : string :=
  match s with
  | EmptyString => EmptyString
  | String c r => if is_ws c then lstrip r else s
  end.

Fixpoint rstrip (s : string) : string :=
  match s with
  | EmptyString => EmptyString
  | String c r =>
      match rstrip r with
      | EmptyString => if is_ws c then EmptyString else String c EmptyString
      | r' => String c r'
      end
  end.

(** [s.strip()] *)
Definition strip (s : string) : string := rstrip (lstrip s).

Fixpoint str_replace_go (old new s : string) (skip : nat) : string :=
  match s with
  | EmptyString => EmptyString
  | String c r =>
      match skip with
      | S k => str_replace_go old new r k
      | O =>
          if String.prefix old s
          then new +:+ str_replace_go old new r (String.length old - 1)
          else String c (str_replace_go old new r 0)
      end
  end.

Fixpoint str_join_chars (sep s : string) : string :=
  match s with
  | EmptyString => EmptyString
  | String c r => String c (sep +:+ str_join_chars sep r)
  end.

(** [s.replace(old, new)]: every non-overlapping occurrence, left to right;
    an empty [old] matches before every character and at the end. *)
Definition str_replace (old new s : string) : string :=
  match old with
  | EmptyString => new +:+ str_join_chars new s
  | _ => str_replace_go old new s 0
  end.

(** [s.replace('.', '', 1)] *)
Fixpoint remove_first_dot (s : string) : string :=
  match s with
  | EmptyString => EmptyString
  | String c r => if bool_decide (c = "."%char) then r else String c (remove_first_dot r)
  end.

(** [c.isdigit()]: the decimal digits and the superscripts two (178),
    three (179) and one (185). *)
Definition is_digit (c : ascii) : bool :=
  let n := nat_of_ascii c in
  ((48 <=? n)%nat && (n <=? 57)%nat) || (n =? 178)%nat || (n =? 179)%nat || (n =? 185)%nat.

(** [s.isdigit()] *)
Definition isdigit (s : string) : bool :=
  negb (bool_decide (s = "")) && str_all is_digit s.

(** [sub in s] *)
Fixpoint contains (sub s : string) : bool :=
  String.prefix sub s ||
  match s with
  | EmptyString => false
  | String _ r => contains sub r
  end.

Fixpoint ends_with (suffix s : string) : bool :=
  bool_decide (s = suffix) ||
  match s with
  | EmptyString => false
  | String _ r => ends_with suffix r
  end.

Definition is_op (c : ascii) : bool := in_string c "+-*/".

Fixpoint re_split_ops_go (s acc : string) (in_sep : bool) : list string :=
  match s with
  | EmptyString => [acc]
  | String c r =>
      if is_op c
      then if in_sep then re_split_ops_go r "" true
           else acc :: re_split_ops_go r "" true
      else re_split_ops_go r (acc +:+ String c "") false
  end.

(** [re.split(r"[\+\-\*\/]+", s)] *)
Definition re_split_ops (s : string) : list string := re_split_ops_go s "" false.

(* the single quote (39) and the double quote (34) *)
Definition is_quote (c : ascii) : bool :=
  let n := nat_of_ascii c in (n =? 39)%nat || (n =? 34)%nat.

Fixpoint strip_trailing_quote (s : string) : string :=
  match s with
  | EmptyString => EmptyString
  | String c r =>
      if is_quote c && (bool_decide (r = "") || bool_decide (r = String "010"%char ""))
      then r
      else String c (strip_trailing_quote r)
  end.

(** [re.sub] of the pattern that matches a single or double quote at the start
    or at the end of the string, by the empty string: one quote is dropped at
    the start, and one at the end (the end anchor also matches before a final
    newline). *)
Definition strip_quotes (s : string) : string :=
  match s with
  | EmptyString => EmptyString
  | String c r => if is_quote c then strip_trailing_quote r else strip_trailing_quote s
  end.

(** ** Builtins and libraries the engine calls

    Python's [eval], [int], [float], number formatting, [dateutil] and [re]
    are not code of the repository: the engine is embedded over any
    implementation of them. *)

Record builtins := {
  (* [eval(s, {"__builtins__": None}, {})] *)
  py_eval : string -> result pyval;
  (* [int(v)] and [float(v)] *)
  py_int : pyval -> result pyval;
  py_float : pyval -> result pyval;
  (* [a * b] *)
  py_mul : pyval -> pyval -> result pyval;
  (* [dateutil.parser.parse(v).timestamp()] *)
  parse_timestamp : pyval -> result pyval;
  (* [dateutil.parser.parse(v).strftime('%Y-%m-%d %H:%M:%S')] *)
  parse_strftime : pyval -> result pyval;
  (* [time.mktime(dateutil.parser.parse(v).timetuple())] *)
  parse_mktime : pyval -> result pyval;
  (* [re.search(pattern, s)] on strings: the captured groups of a match *)
  re_search : string -> string -> result (option (list (option string)));
  (* [str(x)] and [f"{x:.6f}"] of a float *)
  float_repr : Qc -> string;
  float_fix6 : Qc -> string
}.

(** ** The metric schema *)

(** A field rule of an exclude/include filter: one pattern or a list of
    patterns; any other YAML value is ignored by the filter. *)
Inductive fieldrule :=
  | FRStr (p : string)
  | FRList (ps : list string)
  | FROther.

(** One entry of the [metrics] section.  An absent key and a YAML null are
    both [None]. *)
Record spec := {
  s_from : option string;
  s_header : option string;
  s_type : option string;
  s_factor : option pyval;
  s_regex : option string;
  s_key : option string;
  s_description : option string;
  s_exclude : option fieldrule;
  s_include : option fieldrule;
  s_value : option pyval
}.

Definition empty_spec : spec :=
  {| s_from := None; s_header := None; s_type := None; s_factor := None;
     s_regex := None; s_key := None; s_description := None;
     s_exclude := None; s_include := None; s_value := None |}.

(** [not spec] for a dictionary: it has no key at all. *)
Definition spec_is_empty (sp : spec) : bool :=
  match sp with
  | {| s_from := None; s_header := None; s_type := None; s_factor := None;
       s_regex := None; s_key := None; s_description := None;
       s_exclude := None; s_include := None; s_value := None |} => true
  | _ => false
  end.

(** The rules of an exclude/include filter: one pattern, a list of patterns
    and field-rule dictionaries, or one field-rule dictionary. *)
Inductive patitem :=
  | PIStr (p : string)
  | PIDict (d : list (string * fieldrule))
  | PIOther.

Inductive patterns :=
  | PStr (p : string)
  | PList (l : list patitem)
  | PDict (d : list (string * fieldrule)).

(** [if exclude] / [if include] *)
Definition pat_truthy (p : patterns) : bool :=
  match p with
  | PStr s => negb (bool_decide (s = ""))
  | PList l => match l with [] => false | _ => true end
  | PDict d => match d with [] => false | _ => true end
  end.

(** Rules that only hold patterns for names (a string, a list of strings),
    and rules that only hold field rules (a mapping, a list of mappings, or
    rules that are empty and so not applied). *)
Definition is_name_item (i : patitem) : bool :=
  match i with PIStr _ => true | _ => false end.

Definition names_only (p : patterns) : bool :=
  match p with
  | PStr _ => true
  | PList l => forallb is_name_item l
  | PDict d => match d with [] => true | _ => false end
  end.

Definition fields_only (p : patterns) : bool :=
  negb (pat_truthy p) ||
  match p with
  | PStr _ => false
  | PList l => forallb (fun i => negb (is_name_item i)) l
  | PDict _ => true
  end.

(** A record of the engine, and a raw row of a source file. *)
Abbreviation row := (gmap string pyval).

(** [self.default[t]] *)
Definition default_of (t : string) : result pyval :=
  if decide (t = "str") then Ok (VStr "")
  else if decide (t = "int") then Ok (VInt (-1))
  else if decide (t = "bool") then Ok VNone
  else if decide (t = "float") then Ok (VInt 0)
  else if decide (t = "date") then Ok (VStr "-")
  else if decide (t = "ts") then Ok (VInt (-1))
  else Raise KeyError.

(** [self.default.get(t, '')] *)
Definition default_get (t : string) : pyval :=
  match default_of t with
  | Ok v => v
  | Raise _ => VStr ""
  end.

(** [if x:] for an optional configuration value *)
Definition opt_truthy (o : option pyval) : bool :=
  match o with
  | Some v => py_truthy v
  | None => false
  end.

(** *** Ordered dictionaries and sets in insertion order *)

(** [d[k] = v] on a dictionary kept in insertion order *)
Fixpoint od_set {V} (k : string) (v : V) (d : list (string * V)) : list (string * V) :=
  match d with
  | [] => [(k, v)]
  | (k', v') :: r =>
      if decide (k' = k) then (k, v) :: r else (k', v') :: od_set k v r
  end.

Fixpoint od_get {V} (k : string) (d : list (string * V)) : option V :=
  match d with
  | [] => None
  | (k', v') :: r => if decide (k' = k) then Some v' else od_get k r
  end.

(** [s.add(x)] on a set of names *)
Definition set_add (x : string) (s : list string) : list string :=
  if bool_decide (x ∈ s) then s else s ++ [x].

(** [s.add(v)] on a set of scalars: membership is Python's [==] *)
Definition pyset_add (v : pyval) (s : list pyval) : list pyval :=
  if existsb (py_eqb v) s then s else s ++ [v].

(** ** Configuration, sources and the benchmark unit *)

Record plot := {
  p_x : option string;
  p_y : option string;
  p_traces : list string;
  p_annotations : list string
}.

(** The parsed configuration of a unit; [c_plots] lists the plots in the
    order in which [_iter_plots] yields them. *)
Record unit_config := {
  c_id : option pyval;
  c_table : list string;
  c_plots : list plot;
  c_metrics : gmap string (option spec)
}.

(** A source file as read: its path, the metadata dictionary collected from
    its comment lines, and its data rows ([csv.DictReader] or
    [flatten_json]). *)
Record source := {
  path : string;
  metadata : row;
  data : list row
}.

(** A [BenchRepo] instance with the data of its unit ([benchmark_data]). *)
Record BenchRepo := {
  _name : string;
  _tab : option string;
  _lastts : Qc;
  _dict : gmap string row;
  _counter : N;
  raw : list row;
  sources : list source;
  metrics : gmap string string;
  parameters : list (string * string);
  graphparameters : list (string * list pyval);
  annotations : list string;
  config : unit_config
}.

(** [BenchRepo(name=..., tab=..., config=..., lastts=...)] and the sources
    found by [get_sources] *)
Definition new_BenchRepo (name : string) (tab : option string) (cfg : unit_config)
    (lastts : Qc) (srcs : list source) : BenchRepo :=
  {| _name := name; _tab := tab; _lastts := lastts; _dict := ∅; _counter := 0%N;
     raw := []; sources := srcs; metrics := ∅; parameters := [];
     graphparameters := []; annotations := []; config := cfg |}.

(** The locals of [get_metrics] computed from the configuration. *)
Record schema := {
  used_metrics : list string;
  plot_metrics : list string;
  headers : list (string * string);
  calc_headers : list (string * string)
}.

(** [s.rstrip(c)] for one character *)
Fixpoint rstrip_char (c : ascii) (s : string) : string :=
  match s with
  | EmptyString => EmptyString
  | String d r =>
      match rstrip_char c r with
      | EmptyString => if bool_decide (d = c) then EmptyString else String d EmptyString
      | r' => String d r'
      end
  end.

(** [sep.join(l)] *)
Fixpoint join (sep : string) (l : list string) : string :=
  match l with
  | [] => ""
  | [x] => x
  | x :: r => x +:+ sep +:+ join sep r
  end.

(** A truthy optional string: present and not empty. *)
Definition str_truthy (o : option string) : option string :=
  match o with
  | Some s => if bool_decide (s = "") then None else Some s
  | None => None
  end.

(** [max(l)] of numbers: the first element is replaced by each later element
    that is greater. *)
Fixpoint max_from (m : Qc) (l : list Qc) : Qc :=
  match l with
  | [] => m
  | x :: r => max_from (if bool_decide (m < x)%Qc then x else m) r
  end.

Definition py_max (l : list Qc) : Qc :=
  match l with
  | [] => 0%Qc
  | x :: r => max_from x r
  end.

(** A number, or [TypeError] in a comparison with a number. *)
Definition as_num (v : pyval) : result Qc :=
  match num_of v with
  | Some q => Ok q
  | None => Raise TypeError
  end.

(** [self._name.replace(" ","_")] followed by the tab, when there is one *)
Definition combined_name (name : string) (tab : option string) : string :=
  str_replace " " "_" name +:+
  match str_truthy tab with
  | Some t => "_" +:+ str_replace " " "_" t
  | None => ""
  end.

(** *** SchemaResolver (lines 488-582) *)

Definition add_plot_metrics (acc : list string * list string) (p : plot)
  : list string * list string :=
  let '(used, plots) := acc in
  let '(used, plots) :=
    match str_truthy (p_x p) with
    | Some x => (set_add x used, set_add x plots)
    | None => (used, plots)
    end in
  let '(used, plots) :=
    match str_truthy (p_y p) with
    | Some y => (set_add y used, set_add y plots)
    | None => (used, plots)
    end in
  let used := foldl (fun s m => set_add m s) used (p_traces p) in
  let plots := foldl (fun s m => set_add m s) plots (p_traces p) in
  let used := foldl (fun s m => set_add m s) used (p_annotations p) in
  (used, plots).

Definition collect_metrics (cfg : unit_config) : list string * list string :=
  foldl add_plot_metrics (foldl (fun s m => set_add m s) [] (c_table cfg), [])
        (c_plots cfg).

(** [graphparameters.setdefault(key, set())] for every trace *)
Definition init_graphparameters (cfg : unit_config) (gp : list (string * list pyval))
  : list (string * list pyval) :=
  foldl (fun gp p =>
           foldl (fun gp key =>
                    match od_get key gp with
                    | Some _ => gp
                    | None => (gp ++ [(key, [])])%list
                    end) gp (p_traces p))
        gp (c_plots cfg).

Definition init_annotations (cfg : unit_config) (an : list string) : list string :=
  foldl (fun an p => foldl (fun s m => set_add m s) an (p_annotations p)) an (c_plots cfg).

Definition has_op (s : string) : bool :=
  negb (str_all (fun c => negb (is_op c)) s).

(** The loop over the used metrics (lines 536-569). *)
Definition resolve_metric (ms : gmap string (option spec))
    (acc : list (string * string) * list (string * string) * gmap string string)
    (metric_name : string)
  : result (list (string * string) * list (string * string) * gmap string string) :=
  let '(hd, calc, types) := acc in
  match ms !! metric_name with
  | None => Raise KeyError
  | Some None =>
      Ok (od_set metric_name metric_name hd, calc, <[metric_name := "str"]> types)
  | Some (Some sp) =>
      let hd :=
        if bool_decide (default "content" (s_from sp) = "content")
        then od_set (default metric_name (s_header sp)) metric_name hd
        else hd in
      let calc :=
        match s_from sp with
        | Some from_val => if has_op from_val then od_set metric_name from_val calc else calc
        | None => calc
        end in
      let t := default "str" (str_truthy (s_type sp)) in
      Ok (hd, calc, <[metric_name := t]> types)
  end.

(** [parameters[key] = metrics_section[key].get('description', key)] *)
Definition add_parameter (ms : gmap string (option spec))
    (ps : list (string * string)) (key : string) : result (list (string * string)) :=
  match ms !! key with
  | None => Raise KeyError
  | Some None => Raise AttributeError
  | Some (Some sp) => Ok (od_set key (default key (s_description sp)) ps)
  end.

Section Engine.

Context (B : builtins).

(** [str(v)] *)
Definition py_str (v : pyval) : string :=
  match v with
  | VNone => "None"
  | VBool true => "True"
  | VBool false => "False"
  | VInt z => pretty z
  | VFloat q => float_repr B q
  | VStr s => s
  end.

(** [re.search(pat, subj)]: both must be strings. *)
Definition re_search_py (pat subj : pyval) : result (option (list (option string))) :=
  match pat, subj with
  | VStr p, VStr s => re_search B p s
  | _, _ => Raise TypeError
  end.

(** [match.group(1)] *)
Definition group1 (m : list (option string)) : result pyval :=
  match m with
  | [] => Raise IndexError
  | None :: _ => Ok VNone
  | Some s :: _ => Ok (VStr s)
  end.

(** *** TypeCaster *)

(** [BenchRepo.convert_data] *)
Definition convert_data (value : pyval) (vtype : string) (factor : option pyval)
  : result pyval :=
  if decide (vtype = "ts") then
    match value with
    | VStr s =>
        if isdigit (remove_first_dot s) then py_float B value
        else try_except2 (parse_timestamp B value) ParserError TypeError (Ok value)
    | _ => try_except2 (parse_timestamp B value) ParserError TypeError (Ok value)
    end
  else if contains "date" vtype then
    try_except2 (parse_timestamp B value) ParserError TypeError (Ok value)
  else if decide (vtype = "int") then
    match factor with
    | Some f => if py_truthy f then i ← py_int B value; py_mul B i f else py_int B value
    | None => py_int B value
    end
  else if decide (vtype = "float") then
    match factor with
    | Some f => if py_truthy f then x ← py_float B value; py_mul B x f else py_float B value
    | None => py_float B value
    end
  else if contains "bool" vtype then
    Ok (VBool (py_truthy value))
  else if decide (vtype = "str") then
    if opt_truthy factor then
      m ← re_search_py (default VNone factor) value;
      match m with
      | None => Ok (VStr (py_str value))
      | Some gs => g ← group1 gs; Ok (VStr (py_str g))
      end
    else Ok (VStr (py_str value))
  else Ok value.

(** The [bool] branch of [_type_cast_value]:
    [not (str(raw).lower() in ['false', '0', '']) if isinstance(raw, (str, int))
     else bool(raw)] *)
Definition cast_bool (raw : pyval) : bool :=
  match raw with
  | VStr _ | VInt _ | VBool _ =>
      negb (bool_decide (lower (py_str raw) ∈ ["false"; "0"; ""]))
  | _ => py_truthy raw
  end.

(** [BenchRepo._type_cast_value]; [None] stands for the pair [(None, None)]
    of the branch for an unknown type (no other branch returns [None] as the
    typed value). *)
Definition _type_cast_value (raw_value : pyval) (sp : spec) (metric_name : string)
  : result (option (pyval * string)) :=
  match s_type sp with
  | Some t =>
      if contains "date" t then
        v ← parse_strftime B raw_value; Ok (Some (v, "date"))
      else if decide (t = "int") then
        i ← py_int B raw_value; v ← py_mul B i (default (VInt 1) (s_factor sp));
        Ok (Some (v, "int"))
      else if decide (t = "float") then
        x ← py_float B raw_value; v ← py_mul B x (default (VInt 1) (s_factor sp));
        Ok (Some (v, "float"))
      else if contains "str" t then Ok (Some (VStr (py_str raw_value), "str"))
      else if contains "bool" t then Ok (Some (VBool (cast_bool raw_value), "bool"))
      else if decide (t = "ts") then
        v ← parse_mktime B raw_value; Ok (Some (v, "ts"))
      else Ok None
  | None =>
      if decide (metric_name = "ts") then
        v ← parse_mktime B raw_value; Ok (Some (v, "ts"))
      else Ok (Some (VStr (py_str raw_value), "str"))
  end.

(** *** ExpressionEvaluator *)

Definition allowed_chars : string := "0123456789+-*(). /".

(** [BenchRepo.safe_math_eval] *)
Definition safe_math_eval (s : string) : result pyval :=
  if str_all (fun c => in_string c allowed_chars) s then py_eval B s
  else Raise UnsafeEval.

(** [line[k]] *)
Definition getitem (line : row) (k : string) : result pyval :=
  match line !! k with
  | Some v => Ok v
  | None => Raise KeyError
  end.

(** [calc.replace(head, v)]: the replacement must be a string. *)
Definition py_replace (head : string) (v : pyval) (calc : string) : result string :=
  match v with
  | VStr s => Ok (str_replace head s calc)
  | _ => Raise TypeError
  end.

(** The substitution loop of [get_metrics] (lines 675-678): every piece of the
    formula between operators is replaced by the value of the column of that
    name in the raw line. *)
Definition substitute (formula : string) (line : row) : result string :=
  foldM (fun calc head =>
           v ← getitem line (strip_quotes head);
           py_replace head v calc)
        formula (re_split_ops formula).

(** [metrics_section[key]['type']] *)
Definition spec_type_item (metrics_section : gmap string (option spec)) (key : string)
  : result string :=
  match metrics_section !! key with
  | None => Raise KeyError
  | Some None => Raise TypeError
  | Some (Some sp) =>
      match s_type sp with
      | Some t => Ok t
      | None => Raise KeyError
      end
  end.

(** The value of one derived metric on one raw line (lines 675-684). *)
Definition derived_value (metrics_section : gmap string (option spec))
    (line : row) (key formula : string) : result pyval :=
  calc ← substitute formula line;
  try_except (safe_math_eval calc) SyntaxError
    (t ← spec_type_item metrics_section key; default_of t).

(** The record of one raw line (lines 672-684): the content headers renamed,
    then the derived metrics. *)
Definition build_line (headers calc_headers : list (string * string))
    (metrics_section : gmap string (option spec)) (line : row) : result row :=
  let current_line : row :=
    foldl (fun (cl : row) '(key_old, key_new) =>
             <[key_new := default (VStr "") (line !! key_old)]> cl) ∅ headers in
  foldM (fun (cl : row) '(key, formula) =>
           v ← derived_value metrics_section line key formula;
           Ok (<[key := v]> cl))
        current_line calc_headers.

(** *** PatternMatcher *)

(** [bool(re.search(pat, subj))] *)
Definition matched (pat : string) (subj : pyval) : result bool :=
  m ← re_search_py (VStr pat) subj; Ok (bool_decide (is_Some m)).

Fixpoint search_list (l : list patitem) (unit : pyval) : result bool :=
  match l with
  | [] => Ok false
  | PIStr p :: r => b ← matched p unit; if b then Ok true else search_list r unit
  | _ :: r => search_list r unit
  end.

(** [BenchRepo.search_patterns]: only strings and strings of a list are
    searched; field rules are not looked at. *)
Definition search_patterns (pats : patterns) (unit : pyval) : result bool :=
  match pats with
  | PStr p => matched p unit
  | PList l => search_list l unit
  | PDict _ => Ok false
  end.

Fixpoint check_values (vs : list string) (key : string) (unit : row) : result bool :=
  match vs with
  | [] => Ok false
  | v :: r =>
      b ← match unit !! key with
          | Some x => matched v x
          | None => Ok false
          end;
      if b then Ok true else check_values r key unit
  end.

(** One [key, value] item of a field-rule dictionary. *)
Definition check_field (key : string) (value : fieldrule) (unit : row) : result bool :=
  match value with
  | FRStr p =>
      match unit !! key with
      | Some x => matched p x
      | None => Ok false
      end
  | FRList vs => check_values vs key unit
  | FROther => Ok false
  end.

Fixpoint check_dict (d : list (string * fieldrule)) (unit : row) : result bool :=
  match d with
  | [] => Ok false
  | (key, value) :: r =>
      b ← check_field key value unit; if b then Ok true else check_dict r unit
  end.

Fixpoint check_list (l : list patitem) (unitname : pyval) (unit : row) : result bool :=
  match l with
  | [] => Ok false
  | PIStr p :: r =>
      b ← matched p unitname; if b then Ok true else check_list r unitname unit
  | PIDict d :: r =>
      b ← check_dict d unit; if b then Ok true else check_list r unitname unit
  | PIOther :: r => check_list r unitname unit
  end.

(** [BenchRepo.check_unit] *)
Definition check_unit (unitname : pyval) (unit : row) (pattern : patterns) : result bool :=
  match pattern with
  | PStr p => matched p unitname
  | PList l => check_list l unitname unit
  | PDict d => check_dict d unit
  end.

(** The body of the loop of [apply_pattern] over a set: is [unit] put into
    [to_remove]? *)
Definition removed_from_set (exclude include : patterns) (unit : string) : result bool :=
  r1 ← (if pat_truthy exclude then search_patterns exclude (VStr unit) else Ok false);
  r2 ← (if pat_truthy include
        then b ← search_patterns include (VStr unit); Ok (negb b)
        else Ok false);
  Ok (r1 || r2).

(** The body of the loops of [apply_pattern] over a list ([unitname] is the
    index) and over a dictionary ([unitname] is the key). *)
Definition removed_unit (exclude include : patterns) (unitname : pyval) (unit : row)
  : result bool :=
  r1 ← (if pat_truthy exclude then check_unit unitname unit exclude else Ok false);
  r2 ← (if pat_truthy include
        then b ← check_unit unitname unit include; Ok (negb b)
        else Ok false);
  Ok (r1 || r2).

(** [BenchRepo.apply_pattern] on a set of names *)
Definition apply_pattern_set (exclude include : patterns) (elems : gset string)
  : result (gset string) :=
  to_remove ← foldM (fun (acc : gset string) unit =>
                       b ← removed_from_set exclude include unit;
                       Ok (if b then {[unit]} ∪ acc else acc))
                    ∅ (elements elems);
  Ok (elems ∖ to_remove).

(** The indices put into [to_remove] by the loop over a list, in increasing
    order. *)
Fixpoint list_to_remove (exclude include : patterns) (idx : nat) (elems : list row)
  : result (list nat) :=
  match elems with
  | [] => Ok []
  | unit :: r =>
      b ← removed_unit exclude include (VInt (Z.of_nat idx)) unit;
      rest ← list_to_remove exclude include (S idx) r;
      Ok (if b then idx :: rest else rest)
  end.

(** [BenchRepo.apply_pattern] on a list of records: the marked indices are
    deleted from the last to the first. *)
Definition apply_pattern_list (exclude include : patterns) (elems : list row)
  : result (list row) :=
  to_remove ← list_to_remove exclude include 0 elems;
  Ok (foldl (fun (l : list row) idx => delete idx l) elems (reverse to_remove)).

(** [BenchRepo.apply_pattern] on a dictionary of records keyed by name *)
Definition apply_pattern_dict (exclude include : patterns) (elems : gmap string row)
  : result (gmap string row) :=
  to_remove ← foldM (fun (acc : list string) '(unitname, unit) =>
                       b ← removed_unit exclude include (VStr unitname) unit;
                       Ok (if b then unitname :: acc else acc))
                    [] (map_to_list elems);
  Ok (foldr (fun unitname (m : gmap string row) => delete unitname m) elems to_remove).

(** The records that the loop of [apply_pattern] over a list keeps: those
    whose index is not put into [to_remove]. *)
Fixpoint kept_list (exclude include : patterns) (idx : nat) (elems : list row) : list row :=
  match elems with
  | [] => []
  | unit :: r =>
      match removed_unit exclude include (VInt (Z.of_nat idx)) unit with
      | Ok false => unit :: kept_list exclude include (S idx) r
      | _ => kept_list exclude include (S idx) r
      end
  end.

(** *** RecordBuilder: one source file (lines 590-862) *)

(** The header of the content column that feeds [ts], when there is one. *)
Definition ts_csv_header (sch : schema) : option string :=
  str_truthy (fst <$> head (filter (fun kv => bool_decide (kv.2 = "ts")) (headers sch))).

(** The loop over the data lines (lines 663-686). *)
Fixpoint read_lines (sch : schema) (ms : gmap string (option spec)) (lines : list row)
  : result (list row) :=
  match lines with
  | [] => Ok []
  | line :: r =>
      let skipped :=
        match ts_csv_header sch with
        | Some h =>
            bool_decide (strip (py_str (default (VStr "") (line !! h))) = "")
        | None => false
        end in
      if skipped then read_lines sch ms r
      else
        current_line ← build_line (headers sch) (calc_headers sch) ms line;
        rest ← read_lines sch ms r;
        Ok (current_line :: rest)
  end.

(** The conversion of one metric of one record (lines 693-705). *)
Definition convert_key (ms : gmap string (option spec)) (key mtype : string)
    (record : row) : result row :=
  match ms !! key with
  | None => Raise KeyError
  | Some None => Raise AttributeError
  | Some (Some sp) =>
      let convert :=
        if decide (mtype = "str") then VStr <$> s_regex sp else s_factor sp in
      v ← getitem record key;
      try_except
        (v' ← convert_data v (if decide (key = "ts") then "ts" else mtype) convert;
         Ok (<[key := v']> record))
        ValueError (Ok record)
  end.

(** The conversion loop (lines 689-705). *)
Definition convert_all (sch : schema) (ms : gmap string (option spec))
    (metrics_types : gmap string string) (current_data : list row) : result (list row) :=
  foldM (fun current_data key =>
           match metrics_types !! key with
           | None => Raise KeyError
           | Some mtype => mapM (convert_key ms key mtype) current_data
           end)
        current_data ((headers sch).*2 ++ (calc_headers sch).*1)%list.

(** The accumulators of the loop that collects the common fields. *)
Record common := {
  common_data : row;
  to_exclude : list (string * fieldrule);
  to_include : list (string * fieldrule);
  metrics_types : gmap string string
}.

Definition with_cast (acc : common) (metric_name : string)
    (typed : option (pyval * string)) : common :=
  match typed with
  | Some (typed_value, value_type) =>
      {| common_data := <[metric_name := typed_value]> (common_data acc);
         to_exclude := to_exclude acc; to_include := to_include acc;
         metrics_types := <[metric_name := value_type]> (metrics_types acc) |}
  | None => acc
  end.

(** One iteration of the loop over the used metrics (lines 717-772). *)
Definition common_step (ms : gmap string (option spec)) (src : source)
    (acc : common) (metric_name : string) : result common :=
  match ms !! metric_name with
  | None => Raise KeyError
  | Some None => Ok acc
  | Some (Some sp) =>
      if spec_is_empty sp then Ok acc
      else
        let acc :=
          {| common_data := common_data acc;
             to_exclude := match s_exclude sp with
                           | Some r => od_set metric_name r (to_exclude acc)
                           | None => to_exclude acc
                           end;
             to_include := match s_include sp with
                           | Some r => od_set metric_name r (to_include acc)
                           | None => to_include acc
                           end;
             metrics_types := metrics_types acc |} in
        match s_from sp with
        | None => Ok acc
        | Some from =>
            if bool_decide (from = "static") || bool_decide (from = "value") then
              match s_value sp with
              | None => Ok acc
              | Some v =>
                  Ok {| common_data := <[metric_name := v]> (common_data acc);
                        to_exclude := to_exclude acc; to_include := to_include acc;
                        metrics_types :=
                          <[metric_name := default "str" (s_type sp)]> (metrics_types acc) |}
              end
            else if contains "name" from then
              match s_regex sp with
              | None => Ok acc
              | Some regex =>
                  m ← re_search B regex (path src);
                  match m with
                  | None => Ok acc
                  | Some gs =>
                      raw_value ← group1 gs;
                      typed ← _type_cast_value raw_value sp metric_name;
                      Ok (with_cast acc metric_name typed)
                  end
              end
            else if bool_decide (from = "metadata") then
              if bool_decide (metadata src = ∅) then Ok acc
              else
                let key_to_find :=
                  match str_truthy (s_key sp) with
                  | Some k => k
                  | None => default metric_name (str_truthy (s_header sp))
                  end in
                match metadata src !! key_to_find with
                | None => Ok acc
                | Some raw_value =>
                    typed ← _type_cast_value raw_value sp metric_name;
                    Ok (with_cast acc metric_name typed)
                end
            else Ok acc
        end
  end.

(** [common_data] before the loop (lines 708-712). *)
Definition common_init (cfg : unit_config) (metrics_types : gmap string string) : common :=
  let base : row := <["__prefix" := VStr "bm"]> (<["__type" := VStr "benchmark"]> ∅) in
  {| common_data := match c_id cfg with
                    | Some i => <["__id" := i]> base
                    | None => base
                    end;
     to_exclude := []; to_include := []; metrics_types := metrics_types |}.

(** [val = str(v).strip(); not val or val.lower() in ['none', 'null', 'nan']] *)
Definition is_empty_value (v : pyval) : bool :=
  let val := strip (py_str v) in
  bool_decide (val = "") || bool_decide (lower val ∈ ["none"; "null"; "nan"]).

(** The check of one used metric of one record (lines 800-828). *)
Definition classify_metric (sch : schema) (metrics_types : gmap string string)
    (acc : pyval * row) (metric : string) : pyval * row :=
  let '(run_status, line) := acc in
  match line !! metric with
  | None => acc
  | Some v =>
      if negb (is_empty_value v) then acc
      else if bool_decide (metric ∈ plot_metrics sch) then
        (VStr "FAILED", <[metric := VNone]> line)
      else
        let metric_type := default "str" (metrics_types !! metric) in
        (if bool_decide (metric_type = "str") then run_status else VStr "FAILED",
         <[metric := default_get metric_type]> line)
  end.

(** Status classification of one record (lines 794-831). *)
Definition classify (sch : schema) (metrics_types : gmap string string) (line : row) : row :=
  let '(run_status, line) :=
    foldl (classify_metric sch metrics_types)
          (default (VStr "SUCCESSFUL") (line !! "_status"), line) (used_metrics sch) in
  <["_status" := run_status]> line.

(** [graphparameters[param].update([data[param] for data in current_data])] *)
Definition update_graphparameters (gp : list (string * list pyval))
    (current_data : list row) : result (list (string * list pyval)) :=
  mapM (fun '(param, values) =>
          vs ← mapM (fun record => getitem record param) current_data;
          Ok (param, foldl (fun s v => pyset_add v s) values vs))
       gp.

(** What the first part of the loop body leaves: the file is skipped
    ([continue]), the whole collection is abandoned ([return False]), or its
    records go on to the watermark. *)
Inductive prepared :=
  | Skip
  | Abort (metrics_types : gmap string string)
  | Ready (metrics_types : gmap string string)
          (graphparameters : list (string * list pyval))
          (raw : list row) (current_data : list row).

(** The loop body up to the pattern filters (lines 590-784): [None] when the
    file is skipped ([continue]), else the accumulators of the common fields
    and the records of the file. *)
Definition collect (cfg : unit_config) (sch : schema) (mt : gmap string string)
    (src : source) : result (option (common * list row)) :=
  let ms := c_metrics cfg in
  if negb (ends_with ".csv" (path src) || ends_with ".json" (path src)) then Ok None
  else
    let metadata := if ends_with ".csv" (path src) then metadata src else ∅ in
    match data src with
    | [] => Ok None
    | first :: _ =>
        if negb (forallb (fun key => bool_decide (is_Some (first !! key))) (headers sch).*1)
        then Ok None
        else
          current_data ← read_lines sch ms (data src);
          current_data ← convert_all sch ms mt current_data;
          acc ← foldM (common_step ms {| path := path src; metadata := metadata;
                                         data := data src |})
                      (common_init cfg mt) (used_metrics sch);
          let current_data := (fun record : row => common_data acc ∪ record) <$> current_data in
          current_data ← apply_pattern_list (PDict (to_exclude acc)) (PDict (to_include acc))
                                            current_data;
          Ok (Some (acc, current_data))
    end.

(** The loop body up to the accumulation in [raw] (lines 590-844). *)
Definition prepare (cfg : unit_config) (sch : schema) (mt : gmap string string)
    (gp : list (string * list pyval)) (raw_data : list row) (src : source)
  : result prepared :=
  c ← collect cfg sch mt src;
  match c with
  | None => Ok Skip
  | Some (acc, []) => Raise IndexError
  | Some (acc, (first :: _) as current_data) =>
      if negb (bool_decide (is_Some (first !! "ts"))) then Ok (Abort (metrics_types acc))
      else
        let current_data := classify sch (metrics_types acc) <$> current_data in
        gp ← update_graphparameters gp current_data;
        Ok (Ready (metrics_types acc) gp (raw_data ++ current_data)%list current_data)
  end.

(** [BenchRepo._format_id_value] *)
Definition _format_id_value (value : pyval) : string :=
  match value with
  | VFloat q => rstrip_char "."%char (rstrip_char "0"%char (float_fix6 B q))
  | _ => py_str value
  end.

(** [data | {'id': '_'.join(...)}] *)
Definition with_id (parameters : list (string * string)) (record : row) : row :=
  <["id" := VStr (join "_" ((fun kv => _format_id_value (default VNone (record !! kv.1)))
                             <$> parameters))]> record.

(** The key of the record numbered [n] of a unit *)
Definition record_key (cname : string) (n : N) : string := cname +:+ "_" +:+ pretty n.

(** [self._dict |= {f"{combined_name}_{next(self._counter)}": data | {...}
                    for data in current_data}] *)
Fixpoint store_records (cname : string) (parameters : list (string * string))
    (dict : gmap string row) (counter : N) (current_data : list row)
  : gmap string row * N :=
  match current_data with
  | [] => (dict, counter)
  | record :: r =>
      store_records cname parameters
        (<[record_key cname counter := with_id parameters record]> dict)
        (counter + 1)%N r
  end.

(** The timestamp of a record as a number, and the test of the watermark
    cut on it. *)
Definition ts_of (record : row) : result Qc :=
  v ← getitem record "ts"; as_num v.

Definition ts_gt (lastts : Qc) (record : row) : bool :=
  match ts_of record with
  | Ok t => bool_decide (lastts < t)%Qc
  | Raise _ => false
  end.

(** No record number from the counter on has its key in the dictionary. *)
Definition keys_unused (cname : string) (dict : gmap string row) (counter : N) : Prop :=
  forall n, (counter <= n)%N -> dict !! record_key cname n = None.

(** The records that a collection emits, read off the raw data of the unit
    before and after it: the records that the collection appended, and when
    the instance has a watermark, those of them with a newer timestamp. *)
Definition emitted_records (lastts : Qc) (before after : list row) : list row :=
  let new := drop (length before) after in
  if bool_decide (lastts = 0%Qc) then new else filter (fun r => ts_gt lastts r) new.

(** The watermark cut: [[data for data in current_data if data['ts'] > lastts]] *)
Fixpoint newer_than (lastts : Qc) (current_data : list row) : result (list row) :=
  match current_data with
  | [] => Ok []
  | record :: r =>
      t ← ts_of record;
      rest ← newer_than lastts r;
      Ok (if bool_decide (lastts < t)%Qc then record :: rest else rest)
  end.

(** The timestamp of [r] is a number not above [L]. *)
Definition ts_at_most (L : Qc) (r : row) : Prop :=
  exists t, ts_of r = Ok t /\ (t ≤ L)%Qc.

(** The rest of the loop body (lines 850-862): the watermark cut, the
    temporary watermark, and the records stored under fresh keys. *)
Definition emit (cname : string) (parameters : list (string * string)) (lastts : Qc)
    (lastts_temp : Qc) (dict : gmap string row) (counter : N) (current_data : list row)
  : result (Qc * gmap string row * N * list row) :=
  current_data ← (if bool_decide (lastts = 0%Qc) then Ok current_data
                  else newer_than lastts current_data);
  vs ← mapM (fun record => getitem record "ts") current_data;
  ts ← mapM as_num vs;
  let lastts_temp := py_max (ts ++ [lastts; lastts_temp])%list in
  let '(dict, counter) := store_records cname parameters dict counter current_data in
  Ok (lastts_temp, dict, counter, current_data).

(** The state of the loop over the sources. *)
Record loop_state := {
  l_metrics : gmap string string;
  l_graphparameters : list (string * list pyval);
  l_raw : list row;
  l_lastts_temp : Qc;
  l_dict : gmap string row;
  l_counter : N
}.

(** The loop over the sources (lines 590-862); the boolean is [false] when
    the loop is left by [return False]. *)
Fixpoint sources_loop (cfg : unit_config) (sch : schema) (cname : string)
    (parameters : list (string * string)) (lastts : Qc) (st : loop_state)
    (srcs : list source) : result (bool * loop_state) :=
  match srcs with
  | [] => Ok (true, st)
  | src :: r =>
      p ← prepare cfg sch (l_metrics st) (l_graphparameters st) (l_raw st) src;
      match p with
      | Skip => sources_loop cfg sch cname parameters lastts st r
      | Abort mt =>
          Ok (false,
              {| l_metrics := mt; l_graphparameters := l_graphparameters st;
                 l_raw := l_raw st; l_lastts_temp := l_lastts_temp st;
                 l_dict := l_dict st; l_counter := l_counter st |})
      | Ready mt gp raw_data current_data =>
          '(lastts_temp, dict, counter, _) ←
             emit cname parameters lastts (l_lastts_temp st) (l_dict st) (l_counter st)
                  current_data;
          sources_loop cfg sch cname parameters lastts
            {| l_metrics := mt; l_graphparameters := gp; l_raw := raw_data;
               l_lastts_temp := lastts_temp; l_dict := dict; l_counter := counter |} r
      end
  end.

(** The schema of a unit, or [None] when a used metric is not defined
    (lines 488-582). *)
Definition resolve_schema (cfg : unit_config) (ps : list (string * string))
  : result (option (schema * gmap string string * list (string * string))) :=
  let '(used, plots) := collect_metrics cfg in
  if negb (forallb (fun m => bool_decide (is_Some (c_metrics cfg !! m))) used) then Ok None
  else
    '(hd, calc, types) ← foldM (resolve_metric (c_metrics cfg)) ([], [], ∅) used;
    let types := <["_status" := "str"]> types in
    ps ← foldM (add_parameter (c_metrics cfg)) ps (c_table cfg);
    Ok (Some ({| used_metrics := used; plot_metrics := plots;
                 headers := hd; calc_headers := calc |}, types, ps)).

(** The instance after the loop over the sources. *)
Definition after_loop (b : BenchRepo) (ps : list (string * string)) (an : list string)
    (lastts : Qc) (st : loop_state) : BenchRepo :=
  {| _name := _name b; _tab := _tab b; _lastts := lastts;
     _dict := l_dict st; _counter := l_counter st; raw := l_raw st;
     sources := sources b; metrics := l_metrics st; parameters := ps;
     graphparameters := l_graphparameters st; annotations := an;
     config := config b |}.

(** [BenchRepo.get_metrics]: the returned boolean and the instance after the
    call.  The watermark [_lastts] is only assigned when the loop ends. *)
Definition get_metrics (b : BenchRepo) : result (bool * BenchRepo) :=
  match sources b with
  | [] => Ok (false, b)
  | _ =>
      let gp := init_graphparameters (config b) (graphparameters b) in
      let an := init_annotations (config b) (annotations b) in
      r ← resolve_schema (config b) (parameters b);
      match r with
      | None =>
          Ok (false,
              {| _name := _name b; _tab := _tab b; _lastts := _lastts b;
                 _dict := _dict b; _counter := _counter b; raw := raw b;
                 sources := sources b; metrics := metrics b;
                 parameters := parameters b; graphparameters := gp;
                 annotations := an; config := config b |})
      | Some (sch, types, ps) =>
          let st0 :=
            {| l_metrics := types; l_graphparameters := gp; l_raw := raw b;
               l_lastts_temp := 0%Qc; l_dict := _dict b; l_counter := _counter b |} in
          '(finished, st) ← sources_loop (config b) sch (combined_name (_name b) (_tab b))
                                         ps (_lastts b) st0 (sources b);
          if finished : bool then Ok (true, after_loop b ps an (l_lastts_temp st) st)
          else Ok (false, after_loop b ps an (_lastts b) st)
      end
  end.

End Engine.

(** ** Aggregator: the valid combinations of graph parameters
    ([gen_footer_conf], lines 1520-1541) *)

(** A combination of graph parameters: the dictionary [current_combination]. *)
Abbreviation combination := (list (string * pyval)).

(** [itertools.product] of the lists [ls]: the last list advances fastest. *)
Fixpoint product (ls : list (list pyval)) : list (list pyval) :=
  match ls with
  | [] => [[]]
  | l :: r => flat_map (fun x => cons x <$> product r) l
  end.

(** [set(comb.items()).issubset(set(data.items()))] *)
Definition is_subset_of (comb : combination) (record : row) : bool :=
  forallb (fun kv : string * pyval =>
             match record !! kv.1 with
             | Some v => py_eqb kv.2 v
             | None => false
             end) comb.

(** [any(... for data in raw_data)] *)
Definition witnessed (comb : combination) (raw_data : list row) : bool :=
  existsb (is_subset_of comb) raw_data.

(** The loop over the items of one combination (lines 1527-1537): the flag
    [valid_combination] after the items. *)
Fixpoint check_items (metrics : gmap string string) (raw_data : list row)
    (comb : combination) (items : combination) (valid : bool) : result bool :=
  match items with
  | [] => Ok valid
  | (key, value) :: r =>
      match metrics !! key with
      | None => Raise KeyError
      | Some t =>
          d ← default_of t;
          if py_eqb d value then check_items metrics raw_data comb r false
          else if negb (witnessed comb raw_data) then check_items metrics raw_data comb r false
          else check_items metrics raw_data comb r valid
      end
  end.

(** The loop over the product (lines 1522-1539). *)
Fixpoint keep_valid (metrics : gmap string string) (raw_data : list row)
    (combs : list combination) : result (list combination) :=
  match combs with
  | [] => Ok []
  | comb :: r =>
      valid ← check_items metrics raw_data comb comb true;
      rest ← keep_valid metrics raw_data r;
      Ok (if valid then comb :: rest else rest)
  end.

(** [a == b] and [a < b] on [(key, value)] pairs *)
Definition pair_eqb (a b : string * pyval) : bool :=
  bool_decide (a.1 = b.1) && py_eqb a.2 b.2.

Definition pair_lt (a b : string * pyval) : result bool :=
  if bool_decide (a.1 = b.1)
  then if py_eqb a.2 b.2 then Ok false else py_lt a.2 b.2
  else Ok (String.ltb a.1 b.1).

(** [a < b] on tuples of pairs: the first pair that differs decides. *)
Fixpoint tuple_lt (a b : list (string * pyval)) : result bool :=
  match a, b with
  | [], [] => Ok false
  | [], _ :: _ => Ok true
  | _ :: _, [] => Ok false
  | x :: a', y :: b' => if pair_eqb x y then tuple_lt a' b' else pair_lt x y
  end.

(** A stable sort that only compares with [<], as [sorted] and [list.sort]
    do; a comparison that raises makes the sort raise. *)
Fixpoint insert_sorted {A} (lt : A -> A -> result bool) (x : A) (l : list A)
  : result (list A) :=
  match l with
  | [] => Ok [x]
  | y :: r =>
      b ← lt y x;
      if b then r' ← insert_sorted lt x r; Ok (y :: r') else Ok (x :: y :: r)
  end.

Fixpoint py_sort {A} (lt : A -> A -> result bool) (l : list A) : result (list A) :=
  match l with
  | [] => Ok []
  | x :: r => s ← py_sort lt r; insert_sorted lt x s
  end.

(** [tuple(sorted(d.items()))] *)
Definition sort_key (comb : combination) : result (list (string * pyval)) :=
  py_sort pair_lt comb.

(** [l.sort(key=lambda d: tuple(sorted(d.items())))] *)
Definition sort_combinations (l : list combination) : result (list combination) :=
  keyed ← mapM (fun comb => k ← sort_key comb; Ok (k, comb)) l;
  sorted ← py_sort (fun a b : list (string * pyval) * combination => tuple_lt a.1 b.1) keyed;
  Ok (sorted.*2).

(** The order of the sorted list, stated apart from the code that sorts.

    The sorted key/value pairs of a combination: its pairs in the ascending
    order of their keys (a dictionary has each key once). *)
Definition sorted_pairs (comb k : list (string * pyval)) : Prop :=
  k ≡ₚ comb /\ Sorted (fun x y => String.ltb x.1 y.1 = true) k.

(** A tuple of pairs that is not after another one: it ends first, or at the
    first pair in which the two differ it has the smaller key, or under the
    same key the smaller value. *)
Inductive pairs_le : list (string * pyval) -> list (string * pyval) -> Prop :=
  | pairs_le_nil b : pairs_le [] b
  | pairs_le_same x y a b :
      x.1 = y.1 -> py_eqb x.2 y.2 = true -> pairs_le a b -> pairs_le (x :: a) (y :: b)
  | pairs_le_key x y a b :
      String.ltb x.1 y.1 = true -> pairs_le (x :: a) (y :: b)
  | pairs_le_value x y a b :
      x.1 = y.1 -> py_lt x.2 y.2 = Ok true -> pairs_le (x :: a) (y :: b).

(** The sorted pairs of the first combination are not after the sorted pairs
    of the second. *)
Definition combination_le (a b : combination) : Prop :=
  exists ka kb, sorted_pairs a ka /\ sorted_pairs b kb /\ pairs_le ka kb.

(** No coordinate of the combination is the default of the type of its
    metric. *)
Definition no_default (metrics : gmap string string) (comb : combination) : Prop :=
  forall k v, (k, v) ∈ comb ->
    exists t d, metrics !! k = Some t /\ default_of t = Ok d /\ py_eqb d v = false.

(** The list [valid_combinations] of [gen_footer_conf] for one unit. *)
Definition valid_combinations (metrics : gmap string string)
    (graphparameters : list (string * list pyval)) (raw_data : list row)
  : result (list combination) :=
  valid ← match graphparameters with
          | [] => Ok []
          | _ => keep_valid metrics raw_data
                   (zip graphparameters.*1 <$> product graphparameters.*2)
          end;
  sort_combinations valid.

(** ** Sample schemas and inputs *)

Definition bool_spec : spec :=
  {| s_from := Some "metadata"; s_header := None; s_type := Some "bool";
     s_factor := None; s_regex := None; s_key := None; s_description := None;
     s_exclude := None; s_include := None; s_value := None |}.

(** A derived metric [ratio = bytes/time] of type float. *)
Definition c1_metrics : gmap string (option spec) :=
  {[ "ratio" := Some {| s_from := Some "bytes/time"; s_header := None;
                        s_type := Some "float"; s_factor := None; s_regex := None;
                        s_key := None; s_description := None; s_exclude := None;
                        s_include := None; s_value := None |} ]}.
Definition c1_headers : list (string * string) := [("ts", "ts")].
Definition c1_calc_headers : list (string * string) := [("ratio", "bytes/time")].
Definition c1_line_text : row :=
  {[ "ts" := VStr "100"; "bytes" := VStr "10"; "time" := VStr "n.a." ]}.
Definition c1_line_missing : row :=
  {[ "ts" := VStr "100"; "bytes" := VStr "10" ]}.

(** *** Builtins for running the engine on concrete inputs

    An instance of [builtins] on the fragment the examples below use: whole
    numbers and strings of digits, and patterns without metacharacters.
    Outside that fragment its functions raise. *)

Definition decimal (s : string) : bool :=
  negb (bool_decide (s = ""))
  && str_all (fun c => (48 <=? nat_of_ascii c)%nat && (nat_of_ascii c <=? 57)%nat) s.

Fixpoint digits_value (s : string) (acc : Z) : Z :=
  match s with
  | EmptyString => acc
  | String c r => digits_value r (10 * acc + (Z.of_nat (nat_of_ascii c) - 48))%Z
  end.

Definition sample_int (v : pyval) : result pyval :=
  match v with
  | VInt z => Ok (VInt z)
  | VBool b => Ok (VInt (if b then 1 else 0))
  | VStr s => if decimal s then Ok (VInt (digits_value s 0)) else Raise ValueError
  | _ => Raise TypeError
  end.

Definition sample_float (v : pyval) : result pyval :=
  match v with
  | VInt z => Ok (VFloat (Qc_of_Z z))
  | VBool b => Ok (VFloat (Qc_of_Z (if b then 1 else 0)))
  | VFloat q => Ok (VFloat q)
  | VStr s => if decimal s then Ok (VFloat (Qc_of_Z (digits_value s 0))) else Raise ValueError
  | VNone => Raise TypeError
  end.

Definition sample_mul (a b : pyval) : result pyval :=
  match a, b with
  | VInt x, VInt y => Ok (VInt (x * y))
  | _, _ =>
      match num_of a, num_of b with
      | Some x, Some y => Ok (VFloat (x * y)%Qc)
      | _, _ => Raise TypeError
      end
  end.

(** No date format is known to the sample parser. *)
Definition sample_parse (v : pyval) : result pyval :=
  match v with
  | VStr _ => Raise ParserError
  | _ => Raise TypeError
  end.

Definition sample_eval (s : string) : result pyval :=
  if decimal s then Ok (VInt (digits_value s 0)) else Raise SyntaxError.

(** A pattern without metacharacters matches where it occurs. *)
Definition sample_search (pat s : string) : result (option (list (option string))) :=
  Ok (if contains pat s then Some [] else None).

Definition sample_float_repr (q : Qc) : string := pretty (Qnum q) +:+ ".0".
Definition sample_float_fix6 (q : Qc) : string := pretty (Qnum q) +:+ ".000000".

Definition sample_builtins : builtins :=
  {| py_eval := sample_eval; py_int := sample_int; py_float := sample_float;
     py_mul := sample_mul; parse_timestamp := sample_parse;
     parse_strftime := sample_parse; parse_mktime := sample_parse;
     re_search := sample_search; float_repr := sample_float_repr;
     float_fix6 := sample_float_fix6 |}.

(** *** A sample unit

    Table parameter [system]; one plot of [value] over [ts] with the trace
    [system] and the annotation [node].  [ts], [system] and [value] are
    columns of the files, [node] comes from the metadata of each file. *)

Definition content_spec (t : string) : spec :=
  {| s_from := None; s_header := None; s_type := Some t; s_factor := None;
     s_regex := None; s_key := None; s_description := None; s_exclude := None;
     s_include := None; s_value := None |}.

Definition metadata_spec (t : string) : spec :=
  {| s_from := Some "metadata"; s_header := None; s_type := Some t; s_factor := None;
     s_regex := None; s_key := None; s_description := None; s_exclude := None;
     s_include := None; s_value := None |}.

Definition sample_plot : plot :=
  {| p_x := Some "ts"; p_y := Some "value"; p_traces := ["system"];
     p_annotations := ["node"] |}.

Definition sample_config : unit_config :=
  {| c_id := None; c_table := ["system"]; c_plots := [sample_plot];
     c_metrics := {[ "ts" := Some (content_spec "ts");
                     "system" := Some (content_spec "str");
                     "value" := Some (content_spec "int");
                     "node" := Some (metadata_spec "str") ]} |}.

Definition sample_row (ts system value : string) : row :=
  {[ "ts" := VStr ts; "system" := VStr system; "value" := VStr value ]}.

(** A file whose comment line gives [node], and a file without it. *)
Definition file_with_node : source :=
  {| path := "results/a.csv"; metadata := {[ "node" := VStr "n1" ]};
     data := [sample_row "100" "A" "5"] |}.

Definition file_without_node : source :=
  {| path := "results/b.csv"; metadata := {[ "host" := VStr "h" ]};
     data := [sample_row "200" "B" "7"] |}.

(** A file with two data rows. *)
Definition file_two_rows : source :=
  {| path := "results/c.csv"; metadata := {[ "node" := VStr "n2" ]};
     data := [sample_row "300" "A" "8"; sample_row "400" "B" "9"] |}.

Definition sample_unit (lastts : Qc) (srcs : list source) : BenchRepo :=
  new_BenchRepo "bench" None sample_config lastts srcs.

(** A fresh unit with a file of two rows and a file of one row. *)
Definition c9_unit : BenchRepo := sample_unit 0%Qc [file_two_rows; file_without_node].

(** The schema, the types and the table parameters of the sample unit, as
    [resolve_schema] computes them. *)
Definition sample_schema : schema :=
  {| used_metrics := ["system"; "ts"; "value"; "node"];
     plot_metrics := ["ts"; "value"; "system"];
     headers := [("system", "system"); ("ts", "ts"); ("value", "value")];
     calc_headers := [] |}.

Definition sample_types : gmap string string :=
  {[ "_status" := "str"; "system" := "str"; "node" := "str"; "value" := "int";
     "ts" := "ts" ]}.

Definition sample_parameters : list (string * string) := [("system", "system")].

(** A file with the timestamps 99, 100 and 101, for a unit whose watermark
    is 100. *)
Definition c2_file : source :=
  {| path := "results/c.csv"; metadata := ∅;
     data := [sample_row "99" "A" "5"; sample_row "100" "A" "6"; sample_row "101" "A" "7"] |}.

Definition c2_unit : BenchRepo := sample_unit (Qc_of_Z 100) [c2_file].

(** A file whose only row has the timestamp 0. *)
Definition epoch_file : source :=
  {| path := "results/e.csv"; metadata := ∅; data := [sample_row "0" "A" "5"] |}.

(** *** A unit whose timestamp comes from the metadata of each file *)

Definition c5_config : unit_config :=
  {| c_id := None; c_table := ["system"];
     c_plots := [{| p_x := Some "ts"; p_y := Some "value"; p_traces := ["system"];
                    p_annotations := [] |}];
     c_metrics := {[ "ts" := Some (metadata_spec "int");
                     "system" := Some (content_spec "str");
                     "value" := Some (content_spec "int") ]} |}.

Definition c5_row (system value : string) : row :=
  {[ "system" := VStr system; "value" := VStr value ]}.

(** A file whose metadata has no [ts], and a file whose metadata has it. *)
Definition c5_file_no_ts : source :=
  {| path := "results/a.csv"; metadata := {[ "host" := VStr "h" ]};
     data := [c5_row "A" "5"] |}.

Definition c5_file_ok : source :=
  {| path := "results/b.csv"; metadata := {[ "ts" := VInt 100 ]};
     data := [c5_row "B" "7"] |}.

Definition c5_unit (srcs : list source) : BenchRepo :=
  new_BenchRepo "bench" None c5_config 0%Qc srcs.

(** *** An inclusion rule on a field *)

Definition c8_include : patterns := PDict [("system", FRStr "A")].
Definition c8_record : row := {[ "system" := VStr "A" ]}.
Definition c8_names : patterns := PList [PIStr "a.csv"; PIStr "b.csv"].

(** *** Graph parameters of a sample unit: the observed systems and node
    counts, with the values left at their defaults by one record. *)

Definition c7_metrics : gmap string string := {[ "system" := "str"; "nodes" := "int" ]}.

Definition c7_graphparameters : list (string * list pyval) :=
  [("system", [VStr "A"; VStr "B"; VStr ""]); ("nodes", [VInt 2; VInt 1; VInt (-1)])].

(** System [A] ran on two nodes and system [B] on one: by the sorted pairs,
    where [nodes] comes before [system], the combination of [B] is the first;
    by the pairs as the dictionary has them it would be the second. *)
Definition c7_raw : list row :=
  [ {[ "system" := VStr "A"; "nodes" := VInt 2; "ts" := VInt 10 ]};
    {[ "system" := VStr "B"; "nodes" := VInt 1; "ts" := VInt 20 ]};
    {[ "system" := VStr ""; "nodes" := VInt (-1); "ts" := VInt 30 ]} ].

(** ** Accumulation of units: objects, references and deep copies

    [__add__], [__iadd__], [deep_merge] and [add] mutate dictionaries, lists
    and sets that several units may share.  The store is a list of
    containers addressed by their index; a container holds immutable scalars
    and the addresses of other containers. *)

Module Accumulation.

Abbreviation loc := nat.

Inductive ref :=
  | RVal (v : pyval)
  | RLoc (l : loc).

Inductive obj :=
  | ODict (d : list (string * ref))
  | OList (l : list ref)
  | OSet (s : list pyval).

Abbreviation heap := (list obj).

(** The dictionaries [_dict] and [_data] of a [BenchRepo] instance. *)
Record instance := {
  i_dict : loc;
  i_data : loc
}.

(** The references held by a container. *)
Definition refs_of (o : obj) : list ref :=
  match o with
  | ODict d => d.*2
  | OList l => l
  | OSet _ => []
  end.

Fixpoint copy_refs (f : heap -> gmap loc loc -> ref -> option (heap * gmap loc loc * ref))
    (h : heap) (memo : gmap loc loc) (rs : list ref)
  : option (heap * gmap loc loc * list ref) :=
  match rs with
  | [] => Some (h, memo, [])
  | r :: rs =>
      match f h memo r with
      | Some (h1, memo1, r') =>
          match copy_refs f h1 memo1 rs with
          | Some (h2, memo2, rs') => Some (h2, memo2, r' :: rs')
          | None => None
          end
      | None => None
      end
  end.

(** [copy.deepcopy(x, memo)]: a scalar is returned as it is; a container
    already in [memo] gives its copy; else the copy is allocated and
    registered in [memo] before its contents are copied.  [None] when the
    fuel runs out or an address is not allocated. *)
Fixpoint deepcopy_ref (fuel : nat) (h : heap) (memo : gmap loc loc) (r : ref)
  : option (heap * gmap loc loc * ref) :=
  match r with
  | RVal _ => Some (h, memo, r)
  | RLoc l =>
      match memo !! l with
      | Some l' => Some (h, memo, RLoc l')
      | None =>
          match fuel with
          | O => None
          | S fuel =>
              let l' := length h in
              match h !! l with
              | Some (OSet s) => Some ((h ++ [OSet s])%list, <[l := l']> memo, RLoc l')
              | Some (OList rs) =>
                  match copy_refs (deepcopy_ref fuel) (h ++ [OList []])%list
                                  (<[l := l']> memo) rs with
                  | Some (h1, memo1, rs') => Some (<[l' := OList rs']> h1, memo1, RLoc l')
                  | None => None
                  end
              | Some (ODict d) =>
                  match copy_refs (deepcopy_ref fuel) (h ++ [ODict []])%list
                                  (<[l := l']> memo) d.*2 with
                  | Some (h1, memo1, rs') =>
                      Some (<[l' := ODict (zip d.*1 rs')]> h1, memo1, RLoc l')
                  | None => None
                  end
              | None => None
              end
          end
      end
  end.

(** [deepcopy(x)] *)
Definition deepcopy (fuel : nat) (h : heap) (r : ref) : option (heap * ref) :=
  match deepcopy_ref fuel h ∅ r with
  | Some (h', _, r') => Some (h', r')
  | None => None
  end.

(** [target_dict[key] = deepcopy(source_value)] *)
Definition store_copy (fuel : nat) (h : heap) (target : loc) (key : string) (sv : ref)
  : option heap :=
  match deepcopy fuel h sv with
  | Some (h1, r') =>
      match h1 !! target with
      | Some (ODict dt) => Some (<[target := ODict (od_set key r' dt)]> h1)
      | _ => None
      end
  | None => None
  end.

Fixpoint fold_items (f : heap -> string * ref -> option heap) (h : heap)
    (items : list (string * ref)) : option heap :=
  match items with
  | [] => Some h
  | item :: r =>
      match f h item with
      | Some h1 => fold_items f h1 r
      | None => None
      end
  end.

(** One iteration of the loop of [deep_merge]. *)
Definition merge_item (rec : heap -> loc -> loc -> option heap) (fuel : nat)
    (target : loc) (h : heap) (item : string * ref) : option heap :=
  let '(key, sv) := item in
  match h !! target with
  | Some (ODict dt) =>
      match od_get key dt with
      | Some (RLoc lt) =>
          match h !! lt, sv with
          | Some (ODict _), RLoc ls =>
              match h !! ls with
              | Some (ODict _) => rec h lt ls
              | _ => store_copy fuel h target key sv
              end
          | Some (OList xs), RLoc ls =>
              match h !! ls with
              | Some (OList ys) => Some (<[lt := OList (xs ++ ys)]> h)
              | _ => store_copy fuel h target key sv
              end
          | Some (OSet xs), RLoc ls =>
              match h !! ls with
              | Some (OSet ys) => Some (<[lt := OSet (foldl (fun s v => pyset_add v s) xs ys)]> h)
              | _ => store_copy fuel h target key sv
              end
          | _, _ => store_copy fuel h target key sv
          end
      | _ => store_copy fuel h target key sv
      end
  | _ => None
  end.

(** [BenchRepo.deep_merge] *)
Fixpoint deep_merge (fuel : nat) (h : heap) (target source : loc) : option heap :=
  match fuel with
  | O => None
  | S fuel =>
      match h !! source with
      | Some (ODict ds) => fold_items (merge_item (deep_merge fuel) fuel target) h ds
      | _ => None
      end
  end.

(** One iteration of the loop of [add]. *)
Definition add_item (rec : heap -> loc -> loc -> option heap) (fuel : nat)
    (add_to : loc) (h : heap) (item : string * ref) : option heap :=
  let '(bk, bv) := item in
  match h !! add_to with
  | Some (ODict dt) =>
      match od_get bk dt, bv with
      | Some (RLoc av), RLoc lb =>
          match h !! av, h !! lb with
          | Some (ODict _), Some (ODict _) => rec h lb av
          | _, _ => store_copy fuel h add_to bk bv
          end
      | _, _ => store_copy fuel h add_to bk bv
      end
  | _ => None
  end.

(** [BenchRepo.add(to_add, add_to)]: an [add_to] that is empty is replaced
    by [self._dict]. *)
Fixpoint add (fuel : nat) (self_dict : loc) (h : heap) (to_add add_to : loc) : option heap :=
  match fuel with
  | O => None
  | S fuel =>
      let add_to :=
        match h !! add_to with
        | Some (ODict []) => self_dict
        | _ => add_to
        end in
      match h !! to_add with
      | Some (ODict items) => fold_items (add_item (add fuel self_dict) fuel add_to) h items
      | _ => None
      end
  end.

(** [BenchRepo.__iadd__] *)
Definition __iadd__ (fuel : nat) (h : heap) (self other : instance) : option heap :=
  match deep_merge fuel h (i_data self) (i_data other) with
  | Some h1 => add fuel (i_dict self) h1 (i_dict other) (i_dict self)
  | None => None
  end.

(** [BenchRepo.__add__]: [new_obj = deepcopy(self); new_obj += other] *)
Definition __add__ (fuel : nat) (h : heap) (self other : instance)
  : option (heap * instance) :=
  match deepcopy_ref fuel h ∅ (RLoc (i_dict self)) with
  | Some (h1, memo, RLoc d) =>
      match deepcopy_ref fuel h1 memo (RLoc (i_data self)) with
      | Some (h2, _, RLoc dt) =>
          let new_obj := {| i_dict := d; i_data := dt |} in
          match __iadd__ fuel h2 new_obj other with
          | Some h3 => Some (h3, new_obj)
          | None => None
          end
      | _ => None
      end
  | _ => None
  end.

(** The store [h'] agrees with [h] on the addresses below [n]. *)
Definition agree (n : nat) (h h' : heap) : Prop :=
  forall l, l < n -> h' !! l = h !! l.

(** A reference that does not point below [n]: a scalar, or the address of a
    container allocated at [n] or later. *)
Definition fresh_ref (n : nat) (r : ref) : Prop :=
  match r with
  | RVal _ => True
  | RLoc l => n <= l
  end.

(** Every dictionary allocated at [n] or later only holds, under its keys,
    scalars and containers allocated at [n] or later. *)
Definition closed (n : nat) (h : heap) : Prop :=
  forall l d, n <= l -> h !! l = Some (ODict d) -> Forall (fresh_ref n) d.*2.

(** Containers of the same kind. *)
Definition same_kind (o o' : obj) : Prop :=
  match o, o' with
  | ODict _, ODict _ => True
  | OList _, OList _ => True
  | OSet _, OSet _ => True
  | _, _ => False
  end.

(** Every container of [h] is still there in [h'], a container of the same
    kind. *)
Definition kinds_kept (h h' : heap) : Prop :=
  forall l o, h !! l = Some o -> exists o', h' !! l = Some o' /\ same_kind o o'.

Definition is_dict (h : heap) (l : loc) : Prop :=
  exists d, h !! l = Some (ODict d).

(** The memo of a deep copy: it maps containers of the store to copies
    allocated at [n] or later, a dictionary to a dictionary. *)
Definition memo_ok (n : nat) (h : heap) (memo : gmap loc loc) : Prop :=
  forall l l', memo !! l = Some l' ->
    n <= l' /\ l < length h /\ (is_dict h l -> is_dict h l').

(** What an operation on the store keeps: it only grows the store, it leaves
    the addresses below [n] as they are, the dictionaries from [n] on stay
    closed, and no container changes its kind. *)
Definition keeps (n : nat) (h h' : heap) : Prop :=
  length h <= length h' /\ agree n h h' /\ closed n h' /\ kinds_kept h h'.

(** The property of a copy function that [copy_refs] lifts to lists. *)
Definition copy_ok (n : nat)
    (f : heap -> gmap loc loc -> ref -> option (heap * gmap loc loc * ref)) : Prop :=
  forall h memo r h' memo' r',
    n <= length h -> memo_ok n h memo -> closed n h ->
    f h memo r = Some (h', memo', r') ->
    keeps n h h' /\ memo_ok n h' memo' /\ fresh_ref n r'
    /\ (forall l, r = RLoc l -> is_dict h l -> exists l', r' = RLoc l' /\ is_dict h' l').

(** The property of a merge function on a target allocated at [n] or later. *)
Definition merge_ok (n : nat) (f : heap -> loc -> loc -> option heap) : Prop :=
  forall h target source h',
    n <= target -> n <= length h -> closed n h ->
    f h target source = Some h' -> keeps n h h'.

(** Every container only refers to allocated containers of lower rank:
    nothing dangles and nothing is cyclic. *)
Definition ordered (rank : loc -> nat) (h : heap) : Prop :=
  forall l o l', h !! l = Some o -> RLoc l' ∈ refs_of o -> l' < length h /\ rank l' < rank l.

(** A reference into the first [n] containers, of rank below [k]. *)
Definition old_below (rank : loc -> nat) (n k : nat) (r : ref) : Prop :=
  match r with
  | RVal _ => True
  | RLoc l => l < n /\ rank l < k
  end.

(** The store [h] extends the store [h0] of length [n] by closed
    dictionaries. *)
Definition extends (n : nat) (h0 h : heap) : Prop :=
  n <= length h /\ agree n h0 h /\ closed n h.

End Accumulation.

(** *** Two instances of one unit

    [c10_a] and [c10_b] both hold a unit [bench] with one record in its list
    [raw] and one record in [_dict]. *)

Definition c10_heap : Accumulation.heap :=
  let RVal := Accumulation.RVal in
  let RLoc := Accumulation.RLoc in
  let ODict := Accumulation.ODict in
  let OList := Accumulation.OList in
  [ ODict [("ts", RVal (VInt 10))];                          (* 0: the record in raw of a *)
    OList [RLoc 0];                                          (* 1: raw of a *)
    ODict [("raw", RLoc 1)];                                 (* 2: the unit of a *)
    ODict [("bench", RLoc 2)];                               (* 3: a._data *)
    ODict [("ts", RVal (VInt 10)); ("id", RVal (VStr "A"))]; (* 4: the record in a._dict *)
    ODict [("bench_0", RLoc 4)];                             (* 5: a._dict *)
    ODict [("ts", RVal (VInt 20))];                          (* 6: the record in raw of b *)
    OList [RLoc 6];                                          (* 7: raw of b *)
    ODict [("raw", RLoc 7)];                                 (* 8: the unit of b *)
    ODict [("bench", RLoc 8)];                               (* 9: b._data *)
    ODict [("ts", RVal (VInt 20)); ("id", RVal (VStr "B"))]; (* 10: the record in b._dict *)
    ODict [("bench_1", RLoc 10)] ].                          (* 11: b._dict *)

Definition c10_a : Accumulation.instance :=
  {| Accumulation.i_dict := 5; Accumulation.i_data := 3 |}.
Definition c10_b : Accumulation.instance :=
  {| Accumulation.i_dict := 11; Accumulation.i_data := 9 |}.

(** * Verified properties *)

(** ** Strings: the character classes on the code points below 256

    The white space, the digits and the letters with a lower case, by their
    code points: the lists are those of [chr(n).isspace()],
    [chr(n).isdigit()] and [chr(n).lower() != chr(n)] for [n] below 256. *)

Lemma is_ws_codes :
  filter (fun n => is_ws (ascii_of_nat n) = true) (seq 0 256)
  = [9; 10; 11; 12; 13; 28; 29; 30; 31; 32; 133; 160].
Proof. vm_compute. reflexivity. Qed.

Lemma is_digit_codes :
  filter (fun n => is_digit (ascii_of_nat n) = true) (seq 0 256)
  = [48; 49; 50; 51; 52; 53; 54; 55; 56; 57; 178; 179; 185].
Proof. vm_compute. reflexivity. Qed.

Lemma lower_char_codes :
  filter (fun n => lower_char (ascii_of_nat n) <> ascii_of_nat n) (seq 0 256)
  = (seq 65 26 ++ seq 192 23 ++ seq 216 7)%list
  /\ Forall (fun n => lower_char (ascii_of_nat n) = ascii_of_nat (n + 32))
            (seq 65 26 ++ seq 192 23 ++ seq 216 7)%list.
Proof. split; [vm_compute; reflexivity|]. apply (bool_decide_unpack _). vm_compute. exact I. Qed.

(** ** TypeCaster: the bool cast *)

Section TypeCasterFacts.

Context (B : builtins).

Lemma lower_length s : String.length (lower s) = String.length s.
Proof. induction s as [|c s IH]; simpl; congruence. Qed.

(** The filename/metadata cast follows the textual rule on every string. *)
Lemma type_cast_value_bool_text (s : string) (sp : spec) (name : string) :
  s_type sp = Some "bool" ->
  _type_cast_value B (VStr s) sp name
  = Ok (Some (VBool (negb (bool_decide (lower s ∈ ["false"; "0"; ""]))), "bool")).
Proof. intros Ht. unfold _type_cast_value. rewrite Ht. reflexivity. Qed.

(** The content-sourced conversion only looks at emptiness. *)
Lemma convert_data_bool_text (s : string) (factor : option pyval) :
  convert_data B (VStr s) "bool" factor = Ok (VBool (negb (bool_decide (s = "")))).
Proof. reflexivity. Qed.

(** C6, at the failing input: the content-sourced conversion
    [convert_data("false", vtype='bool')] yields [True], and so does the text
    ["0"], while the filename/metadata cast [_type_cast_value] of the same
    strings yields [False] as the claim says. *)
Theorem C6_convert_data_bool_ignores_text :
  convert_data B (VStr "false") "bool" None = Ok (VBool true)
  /\ convert_data B (VStr "0") "bool" None = Ok (VBool true)
  /\ convert_data B (VStr "") "bool" None = Ok (VBool false)
  /\ _type_cast_value B (VStr "false") bool_spec "flag" = Ok (Some (VBool false, "bool"))
  /\ _type_cast_value B (VStr "0") bool_spec "flag" = Ok (Some (VBool false, "bool")).
Proof. repeat split; reflexivity. Qed.

End TypeCasterFacts.

(** ** ExpressionEvaluator: derived metrics *)

Section ExpressionFacts.

Context (B : builtins).

(** A character outside the allowed set stops [safe_math_eval] before the
    evaluator is called. *)
Lemma safe_math_eval_rejects (s : string) :
  str_all (fun c => in_string c allowed_chars) s = false ->
  safe_math_eval B s = Raise UnsafeEval.
Proof. intros H. unfold safe_math_eval. rewrite H. reflexivity. Qed.

(** ... whatever the evaluator is: nothing of the expression is evaluated. *)
Lemma safe_math_eval_rejects_no_eval (B' : builtins) (s : string) :
  str_all (fun c => in_string c allowed_chars) s = false ->
  safe_math_eval B s = safe_math_eval B' s.
Proof. intros H. unfold safe_math_eval. rewrite H. reflexivity. Qed.

(** A malformed expression ([SyntaxError]) of a metric with a declared, known
    type yields the default of the type. *)
Lemma derived_value_syntax_error ms line key formula calc t d :
  substitute formula line = Ok calc ->
  safe_math_eval B calc = Raise SyntaxError ->
  spec_type_item ms key = Ok t ->
  default_of t = Ok d ->
  derived_value B ms line key formula = Ok d.
Proof.
  intros Hs He Ht Hd. unfold derived_value. rewrite Hs. simpl.
  rewrite He. simpl. rewrite Ht. simpl. exact Hd.
Qed.

(** The rejection is not caught by the handler of [SyntaxError]. *)
Lemma derived_value_unsafe ms line key formula calc :
  substitute formula line = Ok calc ->
  str_all (fun c => in_string c allowed_chars) calc = false ->
  derived_value B ms line key formula = Raise UnsafeEval.
Proof.
  intros Hs Hc. unfold derived_value. rewrite Hs. simpl.
  rewrite safe_math_eval_rejects by assumption. reflexivity.
Qed.

(** A column of the formula that the raw line lacks is a [KeyError], raised
    before the [try]. *)
Lemma derived_value_missing_field ms line key formula :
  substitute formula line = Raise KeyError ->
  derived_value B ms line key formula = Raise KeyError.
Proof. intros Hs. unfold derived_value. rewrite Hs. reflexivity. Qed.

(** C1, at the failing inputs: for the derived metric [ratio = bytes/time] of
    type float, a raw line whose [time] cell is the text [n.a.] makes record
    building raise the bare exception of [safe_math_eval] (no default is
    stored, the exception leaves the per-row loop), and a raw line without the
    column [time] makes it raise [KeyError]; only a [SyntaxError] of the
    evaluator is turned into the default. *)
Theorem C1_derived_metric_failure_propagates :
  build_line B c1_headers c1_calc_headers c1_metrics c1_line_text = Raise UnsafeEval
  /\ build_line B c1_headers c1_calc_headers c1_metrics c1_line_missing = Raise KeyError.
Proof. split; vm_compute; reflexivity. Qed.

End ExpressionFacts.

(** ** The error monad *)

Lemma rbind_ok {A C} (m : result A) (f : A -> result C) (c : C) :
  rbind m f = Ok c -> exists a, m = Ok a /\ f a = Ok c.
Proof. destruct m as [a|e]; simpl; [eauto | discriminate]. Qed.

(** Splits the first bind of a hypothesis [x ← m; k = Ok c]. *)
Ltac bind_inv H :=
  let a := fresh "a" in
  let E := fresh "E" in
  apply rbind_ok in H; destruct H as (a & E & H).

Lemma mapM_ok_length {A C} (f : A -> result C) l l' :
  mapM f l = Ok l' -> length l' = length l.
Proof.
  revert l'. induction l as [|x l IH]; simpl; intros l' H.
  - inversion H. reflexivity.
  - bind_inv H. bind_inv H. inversion H; subst. simpl. f_equal. eauto.
Qed.

Lemma mapM_ok_Forall2 {A C} (f : A -> result C) l l' :
  mapM f l = Ok l' -> Forall2 (fun x y => f x = Ok y) l l'.
Proof.
  revert l'. induction l as [|x l IH]; simpl; intros l' H.
  - inversion H. constructor.
  - bind_inv H. bind_inv H. inversion H; subst. constructor; eauto.
Qed.

Lemma Forall2_mapM_ok {A C} (f : A -> result C) l l' :
  Forall2 (fun x y => f x = Ok y) l l' -> mapM f l = Ok l'.
Proof. induction 1 as [|x y l l' Hxy _ IH]; simpl; [done|]. rewrite Hxy. simpl. rewrite IH. done. Qed.

(** ** The watermark *)

Section Watermark.

Local Open Scope Qc_scope.

Lemma max_from_ge m l : m ≤ max_from m l.
Proof.
  revert m. induction l as [|x l IH]; intros m; simpl; [reflexivity|].
  case_bool_decide as Hlt.
  - etrans; [apply Qclt_le_weak, Hlt | apply IH].
  - apply IH.
Qed.

Lemma max_from_elem m l x : x ∈ l -> x ≤ max_from m l.
Proof.
  revert m. induction l as [|y l IH]; intros m Hx; [by apply elem_of_nil in Hx|].
  apply elem_of_cons in Hx as [->|Hx]; simpl.
  - case_bool_decide as Hlt; [apply max_from_ge|].
    etrans; [apply Qcle_ngt, Hlt | apply max_from_ge].
  - by apply IH.
Qed.

Lemma py_max_ge l x : x ∈ l -> x ≤ py_max l.
Proof.
  destruct l as [|y l]; intros Hx; [by apply elem_of_nil in Hx|].
  apply elem_of_cons in Hx as [->|Hx]; simpl;
    [apply max_from_ge | by apply max_from_elem].
Qed.

Lemma max_from_in m l : max_from m l = m \/ max_from m l ∈ l.
Proof.
  revert m. induction l as [|y l IH]; intros m; simpl; [by left|].
  case_bool_decide.
  - destruct (IH y) as [->|?]; right; [left | by right].
  - destruct (IH m) as [->|?]; [by left | right; by right].
Qed.

Lemma py_max_in l : l <> [] -> py_max l ∈ l.
Proof.
  destruct l as [|y l]; [done|]. intros _. simpl.
  destruct (max_from_in y l) as [->|?]; [left | by right].
Qed.

Lemma py_max_eq l M : M ∈ l -> (forall x, x ∈ l -> x ≤ M) -> py_max l = M.
Proof.
  intros HM Hle. apply (anti_symm Qcle).
  - apply Hle, py_max_in. intros ->. by apply elem_of_nil in HM.
  - by apply py_max_ge.
Qed.

Lemma ts_gt_true L r : ts_gt L r = true <-> exists t, ts_of r = Ok t /\ L < t.
Proof.
  unfold ts_gt. destruct (ts_of r) as [t|e].
  - rewrite bool_decide_eq_true. split; [eauto|]. by intros (t' & [= <-] & ?).
  - split; [done|]. by intros (t' & ? & ?).
Qed.

(** The watermark cut is a filter as soon as every timestamp is a number. *)
Lemma newer_than_ok L rows :
  Forall (fun r => is_ok (ts_of r) = true) rows ->
  newer_than L rows = Ok (filter (fun r => ts_gt L r) rows).
Proof.
  induction 1 as [|r rows Hr _ IH]; simpl; [done|].
  rewrite IH. 
  destruct (ts_of r) as [t|] eqn:Et; [|done]. simpl.
  case_bool_decide as Hlt.
  - rewrite filter_cons_True; [done|]. apply Is_true_true, ts_gt_true. eauto.
  - rewrite filter_cons_False; [done|]. intros Hgt%Is_true_true%ts_gt_true.
    destruct Hgt as (t' & Ht' & ?). congruence.
Qed.

Lemma newer_than_inv L rows out :
  newer_than L rows = Ok out ->
  Forall (fun r => is_ok (ts_of r) = true) rows /\ out = filter (fun r => ts_gt L r) rows.
Proof.
  intros H. assert (Forall (fun r => is_ok (ts_of r) = true) rows) as HF.
  { revert out H. induction rows as [|r rows IH]; intros out H; [constructor|].
    simpl in H. bind_inv H. bind_inv H. constructor; [by rewrite E|eauto]. }
  split; [done|]. rewrite newer_than_ok in H by done. congruence.
Qed.

Context (B : builtins).

Lemma mapM_ts_of rows vs ts :
  mapM (fun record => getitem record "ts") rows = Ok vs ->
  mapM as_num vs = Ok ts ->
  mapM ts_of rows = Ok ts.
Proof.
  intros H1%mapM_ok_Forall2 H2%mapM_ok_Forall2. apply Forall2_mapM_ok.
  revert ts H2. induction H1 as [|r v rows vs Hr _ IH]; intros ts H2.
  - inversion H2. constructor.
  - inversion H2; subst. constructor; [|eauto]. unfold ts_of. rewrite Hr. done.
Qed.

Lemma emit_inv cname ps L temp dict counter rows temp' dict' counter' out :
  emit B cname ps L temp dict counter rows = Ok (temp', dict', counter', out) ->
  (if bool_decide (L = 0) then out = rows
   else Forall (fun r => is_ok (ts_of r) = true) rows
        /\ out = filter (fun r => ts_gt L r) rows)
  /\ (exists ts, mapM ts_of out = Ok ts /\ temp' = py_max (ts ++ [L; temp]))
  /\ store_records B cname ps dict counter out = (dict', counter').
Proof.
  unfold emit. intros H. bind_inv H. bind_inv H. bind_inv H.
  destruct (store_records B cname ps dict counter a) as [d c] eqn:Es.
  inversion H; subst. split_and!.
  - case_bool_decide; [congruence|]. by apply newer_than_inv.
  - eexists. split; [by eapply mapM_ts_of|done].
  - done.
Qed.

Lemma mapM_ts_of_inv rows ts :
  mapM ts_of rows = Ok ts ->
  exists vs, mapM (fun record => getitem record "ts") rows = Ok vs /\ mapM as_num vs = Ok ts.
Proof.
  revert ts. induction rows as [|r rows IH]; simpl; intros ts H.
  - inversion H. by exists [].
  - bind_inv H. bind_inv H. inversion H; subst.
    destruct (IH _ E0) as (vs & Hvs & Hts).
    unfold ts_of in E. bind_inv E. exists (a1 :: vs). rewrite E1, Hvs. simpl.
    rewrite E, Hts. done.
Qed.

(** The outcome of [emit] once the timestamps are known to be numbers. *)
Lemma emit_ok cname ps L temp dict counter rows out ts :
  out = (if bool_decide (L = 0) then rows else filter (fun r => ts_gt L r) rows) ->
  Forall (fun r => is_ok (ts_of r) = true) rows ->
  mapM ts_of out = Ok ts ->
  emit B cname ps L temp dict counter rows
  = Ok (py_max (ts ++ [L; temp]),
        (store_records B cname ps dict counter out).1,
        (store_records B cname ps dict counter out).2, out).
Proof.
  intros Hout Hall Hts. unfold emit.
  assert ((if bool_decide (L = 0) then Ok rows else newer_than L rows) = Ok out) as ->.
  { subst out. case_bool_decide; [done|]. by apply newer_than_ok. }
  simpl. destruct (mapM_ts_of_inv _ _ Hts) as (vs & -> & Hn). simpl. rewrite Hn. simpl.
  by destruct (store_records B cname ps dict counter out).
Qed.

Lemma Qc_pred_lt (T : Qc) : T - 1 < T.
Proof.
  rewrite <-(Qcplus_0_r T) at 2. unfold Qcminus. by apply Qcplus_lt_mono_l.
Qed.

Lemma Qc_succ_lt (T : Qc) : T < T + 1.
Proof. rewrite <-(Qcplus_0_r T) at 1. by apply Qcplus_lt_mono_l. Qed.

(** C2: a unit whose watermark is [T > 0] and whose only source file yields
    rows with the timestamps [T-1], [T] and [T+1] (in any order) stores
    exactly one record, the row with the timestamp [T+1], under the next
    key, and its watermark is [T+1] afterwards. *)
Theorem C2_watermark_cut (b : BenchRepo) (src : source) (T : Qc) sch types ps mt gp raw'
    rows r1 r2 r3 :
  0 < T ->
  _lastts b = T ->
  sources b = [src] ->
  resolve_schema (config b) (parameters b) = Ok (Some (sch, types, ps)) ->
  prepare B (config b) sch types (init_graphparameters (config b) (graphparameters b))
          (raw b) src = Ok (Ready mt gp raw' rows) ->
  rows ≡ₚ [r1; r2; r3] ->
  ts_of r1 = Ok (T - 1) -> ts_of r2 = Ok T -> ts_of r3 = Ok (T + 1) ->
  exists b',
    get_metrics B b = Ok (true, b')
    /\ _dict b' = <[record_key (combined_name (_name b) (_tab b)) (_counter b)
                   := with_id B ps r3]> (_dict b)
    /\ _counter b' = (_counter b + 1)%N
    /\ _lastts b' = T + 1.
Proof.
  intros HT HL Hsrc Hsch Hprep Hperm H1 H2 H3.
  assert (Forall (fun r => is_ok (ts_of r) = true) rows) as Hall.
  { rewrite Hperm. repeat constructor; [by rewrite H1|by rewrite H2|by rewrite H3]. }
  assert (filter (fun r => ts_gt T r) rows = [r3]) as Hcut.
  { apply Permutation_singleton_r. rewrite Hperm.
    rewrite filter_cons_False, filter_cons_False, filter_cons_True; [done|..].
    - apply Is_true_true, ts_gt_true. eexists; split; [done|apply Qc_succ_lt].
    - intros (t & Ht & Hlt)%Is_true_true%ts_gt_true.
      rewrite H2 in Ht. injection Ht as <-. by apply (irreflexivity Qclt) in Hlt.
    - intros (t & Ht & Hlt)%Is_true_true%ts_gt_true.
      rewrite H1 in Ht. injection Ht as <-.
      apply (irreflexivity Qclt T). etrans; [done|apply Qc_pred_lt]. }
  assert (T <> 0) as HT0 by (intros ->; by apply (irreflexivity Qclt) in HT).
  unfold get_metrics. rewrite Hsrc, Hsch. simpl. rewrite Hprep. simpl. rewrite HL.
  rewrite (emit_ok _ _ _ _ _ _ _ [r3] [T + 1]);
    [|by rewrite bool_decide_eq_false_2|done|cbn [mapM]; by rewrite H3].
  cbn -[py_max]. eexists. split; [done|]. cbn -[py_max]. split_and!; [done..|].
  apply py_max_eq; [set_solver|].
  intros x Hx. repeat (apply elem_of_cons in Hx as [->|Hx]); [reflexivity|..].
  - apply Qclt_le_weak, Qc_succ_lt.
  - apply Qclt_le_weak. etrans; [done|apply Qc_succ_lt].
  - by apply elem_of_nil in Hx.
Qed.

End Watermark.

Lemma C2_witness :
  exists b', get_metrics sample_builtins c2_unit = Ok (true, b')
    /\ _counter b' = 1%N /\ _lastts b' = (Qc_of_Z 100 + 1)%Qc.
Proof.
  edestruct (C2_watermark_cut sample_builtins c2_unit c2_file (Qc_of_Z 100))
    as (b' & Hrun & _ & Hc & Hl).
  - done.
  - reflexivity.
  - reflexivity.
  - vm_compute. reflexivity.
  - vm_compute. reflexivity.
  - reflexivity.
  - vm_compute; f_equal; try (apply Qc_is_canon; reflexivity).
  - vm_compute; f_equal; try (apply Qc_is_canon; reflexivity).
  - vm_compute; f_equal; try (apply Qc_is_canon; reflexivity).
  - exists b'. split; [exact Hrun|]. split; [exact Hc|exact Hl].
Defined.

(** ** Two runs over the same sources *)

Section Rerun.

Local Open Scope Qc_scope.

Context (B : builtins).

Lemma mapM_ts_of_elem rows ts r t :
  mapM ts_of rows = Ok ts -> r ∈ rows -> ts_of r = Ok t -> t ∈ ts.
Proof.
  intros H%mapM_ok_Forall2 Hr Ht. induction H as [|x y l l' Hxy _ IH].
  - by apply elem_of_nil in Hr.
  - apply elem_of_cons in Hr as [->|Hr]; [|right; eauto].
    rewrite Ht in Hxy. injection Hxy as ->. left.
Qed.

(** After a file, the temporary watermark bounds the timestamp of all its
    rows, emitted or cut. *)
Lemma emit_bound cname ps L temp dict counter rows temp' dict' counter' out :
  emit B cname ps L temp dict counter rows = Ok (temp', dict', counter', out) ->
  temp ≤ temp' /\ Forall (ts_at_most temp') rows.
Proof.
  intros (Hout & (ts & Hts & ->) & _)%emit_inv. split.
  { apply py_max_ge. set_solver. }
  assert (L ≤ py_max (ts ++ [L; temp])) as HL by (apply py_max_ge; set_solver).
  assert (forall r, r ∈ out -> ts_at_most (py_max (ts ++ [L; temp])) r) as Hemitted.
  { intros r Hr. pose proof (mapM_ok_Forall2 _ _ _ Hts) as HF.
    destruct (ts_of r) as [t|e] eqn:Et.
    - exists t. split; [done|]. apply py_max_ge, elem_of_app. left.
      by eapply mapM_ts_of_elem.
    - destruct (proj1 (list_elem_of_lookup _ _) Hr) as [i Hi].
      destruct (Forall2_lookup_l _ _ _ _ _ HF Hi) as (t & _ & Ht). congruence. }
  apply list.Forall_forall. intros r Hr. case_bool_decide as H0.
  - subst out. eauto.
  - destruct Hout as [Hall ->].
    destruct (ts_gt L r) eqn:Hgt.
    + apply Hemitted. apply list_elem_of_filter. split; [by apply Is_true_true|done].
    + rewrite list.Forall_forall in Hall. specialize (Hall _ Hr).
      destruct (ts_of r) as [t|] eqn:Et; [|done]. exists t. split; [done|].
      etrans; [|exact HL]. apply Qcle_ngt. intros Hlt.
      assert (ts_gt L r = true) by (apply ts_gt_true; eauto). congruence.
Qed.

Lemma ts_at_most_ok L r : ts_at_most L r -> is_ok (ts_of r) = true.
Proof. by intros (t & -> & _). Qed.

Lemma filter_ts_gt_nil L rows :
  Forall (ts_at_most L) rows -> filter (fun r => ts_gt L r) rows = [].
Proof.
  induction 1 as [|r rows (t & Ht & Hle) _ IH]; [done|].
  rewrite filter_cons_False; [done|].
  intros (t' & Ht' & Hlt)%Is_true_true%ts_gt_true.
  rewrite Ht in Ht'. injection Ht' as <-. by apply Qcle_ngt in Hle.
Qed.

(** With a watermark that is not zero and bounds every timestamp, nothing
    is emitted. *)
Lemma emit_nothing cname ps L temp dict counter rows :
  L <> 0 -> Forall (ts_at_most L) rows ->
  emit B cname ps L temp dict counter rows = Ok (py_max [L; temp], dict, counter, []).
Proof.
  intros HL Hall.
  rewrite (emit_ok B _ _ _ _ _ _ _ [] []); [reflexivity| | |reflexivity].
  - rewrite bool_decide_eq_false_2 by done. by rewrite filter_ts_gt_nil.
  - eapply list.Forall_impl; [exact Hall|]. apply ts_at_most_ok.
Qed.

Lemma ts_at_most_mono L L' r : L ≤ L' -> ts_at_most L r -> ts_at_most L' r.
Proof. intros HL (t & Ht & Hle). exists t. split; [done|by etrans]. Qed.

Lemma sources_loop_temp_mono cfg sch cname ps L srcs st fin st' :
  sources_loop B cfg sch cname ps L st srcs = Ok (fin, st') ->
  l_lastts_temp st ≤ l_lastts_temp st'.
Proof.
  revert st. induction srcs as [|src srcs IH]; simpl; intros st H.
  - by inversion H.
  - bind_inv H. destruct a as [|mt|mt gp rw rows].
    + eauto.
    + by inversion H.
    + bind_inv H. destruct a as [[[temp' d'] c'] out].
      apply emit_bound in E0 as [Hle _]. apply IH in H. simpl in H. by etrans.
Qed.

(** The second run: same sources, the watermark [L1] of the first run. *)
Lemma sources_loop_rerun cfg sch cname ps L0 L1 srcs st1 st2 st1' :
  l_metrics st1 = l_metrics st2 ->
  l_graphparameters st1 = l_graphparameters st2 ->
  l_raw st1 = l_raw st2 ->
  sources_loop B cfg sch cname ps L0 st1 srcs = Ok (true, st1') ->
  L1 <> 0 -> l_lastts_temp st1' ≤ L1 ->
  exists st2',
    sources_loop B cfg sch cname ps L1 st2 srcs = Ok (true, st2')
    /\ l_dict st2' = l_dict st2 /\ l_counter st2' = l_counter st2.
Proof.
  intros Hm Hg Hr H HL1 Hle. revert st1 st2 Hm Hg Hr H.
  induction srcs as [|src srcs IH]; simpl; intros st1 st2 Hm Hg Hr H.
  - eauto.
  - bind_inv H. rewrite <-Hm, <-Hg, <-Hr, E. simpl.
    destruct a as [|mt|mt gp rw rows].
    + eauto.
    + by inversion H.
    + bind_inv H. destruct a as [[[temp' d'] c'] out].
      pose proof (sources_loop_temp_mono _ _ _ _ _ _ _ _ _ H) as Hmono. simpl in Hmono.
      apply emit_bound in E0 as [_ Hall].
      rewrite emit_nothing; [|done|].
      2:{ eapply list.Forall_impl; [exact Hall|]. intros r. apply ts_at_most_mono. by etrans. }
      cbn -[py_max].
      edestruct (IH {| l_metrics := mt; l_graphparameters := gp; l_raw := rw;
                       l_lastts_temp := temp'; l_dict := d'; l_counter := c' |}
                    {| l_metrics := mt; l_graphparameters := gp; l_raw := rw;
                       l_lastts_temp := py_max [L1; l_lastts_temp st2];
                       l_dict := l_dict st2; l_counter := l_counter st2 |})
        as (st2' & -> & Hd & Hc); [reflexivity..|exact H|].
      eauto.
Qed.

End Rerun.

Section RerunTheorem.

Local Open Scope Qc_scope.

Context (B : builtins).

(** C3, amended: when the first run of a fresh instance succeeds and leaves a
    watermark that is not zero, a second run of a fresh instance over the same
    sources with that watermark succeeds and stores no record. *)
Theorem C3_rerun_after_nonzero_watermark name tab cfg L0 srcs b1 :
  get_metrics B (new_BenchRepo name tab cfg L0 srcs) = Ok (true, b1) ->
  _lastts b1 <> 0 ->
  exists b2,
    get_metrics B (new_BenchRepo name tab cfg (_lastts b1) srcs) = Ok (true, b2)
    /\ _dict b2 = ∅.
Proof.
  unfold get_metrics. simpl. intros H HL.
  destruct srcs as [|src srcs]; [by inversion H|].
  bind_inv H. rewrite E. cbn [rbind].
  destruct a as [[[sch types] ps]|]; [|by inversion H].
  bind_inv H. destruct a as [fin st1]. destruct fin; inversion H; subst b1; clear H.
  simpl in HL.
  edestruct (sources_loop_rerun B) as (st2 & -> & Hd & _);
    [| | |exact E0|exact HL|reflexivity|]; [reflexivity..|].
  cbn [rbind]. eexists. split; [reflexivity|]. simpl. exact Hd.
Qed.

End RerunTheorem.

(** C3 as stated fails when the watermark produced by the first run is zero:
    a file whose only row has the timestamp 0 leaves the watermark 0, and the
    second run, whose cut is only made for a watermark that is not zero,
    stores the row again. *)
Lemma C3_counterexample :
  exists b1 b2,
    get_metrics sample_builtins (sample_unit 0%Qc [epoch_file]) = Ok (true, b1)
    /\ get_metrics sample_builtins (sample_unit (_lastts b1) [epoch_file]) = Ok (true, b2)
    /\ _dict b2 <> ∅.
Proof.
  eexists. eexists. split; [vm_compute; reflexivity|].
  split; [vm_compute; reflexivity|].
  intros H. apply (f_equal (fun m : gmap string row => bool_decide (is_Some (m !! "bench_0")))) in H.
  vm_compute in H. discriminate.
Qed.

Lemma C3_witness :
  exists b2, get_metrics sample_builtins (sample_unit (Qc_of_Z 101) [c2_file]) = Ok (true, b2)
             /\ _dict b2 = ∅.
Proof.
  edestruct (C3_rerun_after_nonzero_watermark sample_builtins "bench" None sample_config
               (Qc_of_Z 100) [c2_file]) as (b2 & H2 & Hd).
  - vm_compute. reflexivity.
  - vm_compute. discriminate.
  - exists b2. split; [exact H2|exact Hd].
Defined.

(** ** Record keys and the counter *)

Section RecordKeys.

Context (B : builtins).

Lemma string_app_inj_r (p a b : string) : p +:+ a = p +:+ b -> a = b.
Proof. induction p as [|c p IH]; simpl; [done|]. intros [= H]. auto. Qed.

Lemma record_key_inj cname (n m : N) : record_key cname n = record_key cname m -> n = m.
Proof.
  unfold record_key. intros H%string_app_inj_r%string_app_inj_r.
  by apply (inj pretty).
Qed.

Lemma store_records_counter cname ps dict counter rows :
  (store_records B cname ps dict counter rows).2 = (counter + N.of_nat (length rows))%N.
Proof.
  revert dict counter. induction rows as [|r rows IH]; intros dict counter; simpl.
  - lia.
  - rewrite IH. lia.
Qed.

Lemma store_records_old cname ps dict counter rows k :
  (forall n, (counter <= n)%N -> k <> record_key cname n) ->
  (store_records B cname ps dict counter rows).1 !! k = dict !! k.
Proof.
  revert dict counter. induction rows as [|r rows IH]; intros dict counter Hk; simpl; [done|].
  rewrite IH by (intros n Hn; apply Hk; lia).
  apply lookup_insert_ne. intros Heq. by apply (Hk counter).
Qed.

Lemma store_records_new cname ps dict counter rows i r :
  rows !! i = Some r ->
  (store_records B cname ps dict counter rows).1 !! record_key cname (counter + N.of_nat i)
  = Some (with_id B ps r).
Proof.
  revert dict counter i. induction rows as [|r' rows IH]; intros dict counter i Hi; [done|].
  cbn [store_records]. destruct i as [|i]; simpl in Hi.
  - injection Hi as ->. rewrite store_records_old.
    + change (N.of_nat 0) with 0%N. rewrite N.add_0_r. apply lookup_insert_eq.
    + intros n Hn Heq%record_key_inj. lia.
  - replace (counter + N.of_nat (S i))%N with (counter + 1 + N.of_nat i)%N by lia.
    by apply IH.
Qed.

Lemma store_records_is_Some cname ps dict counter rows k :
  is_Some ((store_records B cname ps dict counter rows).1 !! k) <->
  is_Some (dict !! k)
  \/ exists n, (counter <= n < counter + N.of_nat (length rows))%N /\ k = record_key cname n.
Proof.
  revert dict counter. induction rows as [|r rows IH]; intros dict counter; simpl.
  - split; [by left|]. intros [?|(n & ? & _)]; [done|lia].
  - rewrite IH. rewrite lookup_insert_is_Some'. split.
    + intros [[<-|?]|(n & Hn & ->)]; [right|by left|right].
      * exists counter. split; [lia|done].
      * exists n. split; [lia|done].
    + intros [?|(n & Hn & ->)]; [left; by right|].
      destruct (decide (n = counter)) as [->|]; [left; by left|].
      right. exists n. split; [lia|done].
Qed.

Lemma store_records_app cname ps dict counter rows1 rows2 :
  store_records B cname ps dict counter (rows1 ++ rows2)
  = store_records B cname ps (store_records B cname ps dict counter rows1).1
                  (store_records B cname ps dict counter rows1).2 rows2.
Proof.
  revert dict counter. induction rows1 as [|r rows1 IH]; intros dict counter; simpl; [done|].
  apply IH.
Qed.

Lemma store_records_other cname ps dict counter rows k :
  (forall i, i < length rows -> k <> record_key cname (counter + N.of_nat i)) ->
  (store_records B cname ps dict counter rows).1 !! k = dict !! k.
Proof.
  revert dict counter. induction rows as [|r rows IH]; intros dict counter Hk; simpl; [done|].
  rewrite IH.
  - apply lookup_insert_ne. intros Heq. apply (Hk 0); [simpl; lia|].
    by rewrite N.add_0_r.
  - intros i Hi. replace (counter + 1 + N.of_nat i)%N with (counter + N.of_nat (S i))%N by lia.
    apply Hk. simpl. lia.
Qed.

Lemma store_records_unused cname ps dict counter rows :
  keys_unused cname dict counter ->
  keys_unused cname (store_records B cname ps dict counter rows).1
                    (store_records B cname ps dict counter rows).2.
Proof.
  intros Hun n Hn. rewrite store_records_counter in Hn. rewrite store_records_other.
  - apply Hun. lia.
  - intros i Hi Heq%record_key_inj. lia.
Qed.

(** What storing a list of records under unused keys does to the dictionary
    and to the counter. *)
Lemma store_records_spec cname ps dict counter rows dict' counter' :
  keys_unused cname dict counter ->
  store_records B cname ps dict counter rows = (dict', counter') ->
  counter' = (counter + N.of_nat (length rows))%N
  /\ (forall i r, rows !! i = Some r ->
        dict' !! record_key cname (counter + N.of_nat i) = Some (with_id B ps r))
  /\ dict ⊆ dict'
  /\ (forall k, is_Some (dict' !! k) ->
        is_Some (dict !! k)
        \/ exists i, i < length rows /\ k = record_key cname (counter + N.of_nat i))
  /\ keys_unused cname dict' counter'.
Proof.
  intros Hun Hst.
  assert (dict' = (store_records B cname ps dict counter rows).1) as -> by (by rewrite Hst).
  assert (counter' = (store_records B cname ps dict counter rows).2) as -> by (by rewrite Hst).
  clear Hst. split_and!.
  - apply store_records_counter.
  - intros i r Hi. by apply store_records_new.
  - apply map_subseteq_spec. intros k v Hk. rewrite store_records_old; [done|].
    intros n Hn ->. rewrite (Hun n Hn) in Hk. done.
  - intros k [Hk|(n & Hn & ->)]%store_records_is_Some; [by left|]. right.
    exists (N.to_nat (n - counter)). split; [lia|]. f_equal. lia.
  - by apply store_records_unused.
Qed.

End RecordKeys.

(** ** Records are stored under fresh keys *)

Section FreshKeys.

Context (B : builtins).

Lemma emit_store cname ps L temp dict counter rows temp' dict' counter' out :
  emit B cname ps L temp dict counter rows = Ok (temp', dict', counter', out) ->
  dict' = (store_records B cname ps dict counter out).1
  /\ counter' = (store_records B cname ps dict counter out).2.
Proof. intros (_ & _ & ->)%emit_inv. done. Qed.

Lemma sources_loop_app cfg sch cname ps L s1 s2 st :
  sources_loop B cfg sch cname ps L st (s1 ++ s2)
  = rbind (sources_loop B cfg sch cname ps L st s1)
          (fun r => if r.1 then sources_loop B cfg sch cname ps L r.2 s2 else Ok (false, r.2)).
Proof.
  revert st. induction s1 as [|src s1 IH]; intros st; simpl; [done|].
  destruct (prepare B cfg sch (l_metrics st) (l_graphparameters st) (l_raw st) src)
    as [[|mt|mt gp rw rows]|e]; simpl; [auto|done| |done].
  destruct (emit B cname ps L (l_lastts_temp st) (l_dict st) (l_counter st) rows)
    as [[[[temp' d'] c'] out]|e]; simpl; [auto|done].
Qed.

Lemma prepare_ready_raw cfg sch mt gp raw_data src mt' gp' raw' rows :
  prepare B cfg sch mt gp raw_data src = Ok (Ready mt' gp' raw' rows) ->
  raw' = (raw_data ++ rows)%list.
Proof.
  unfold prepare. intros H. bind_inv H. destruct a as [[acc [|first more]]|]; [done| |done].
  destruct (negb _); [done|]. bind_inv H. by injection H as <- <- <- <-.
Qed.

(** The loop over the sources appends to the raw data, and stores, in their
    order, the appended records that pass the watermark cut. *)
Lemma sources_loop_emitted cfg sch cname ps L srcs st fin st' :
  sources_loop B cfg sch cname ps L st srcs = Ok (fin, st') ->
  exists new,
    l_raw st' = (l_raw st ++ new)%list
    /\ store_records B cname ps (l_dict st) (l_counter st)
         (if bool_decide (L = 0%Qc) then new else filter (fun r => ts_gt L r) new)
       = (l_dict st', l_counter st').
Proof.
  revert st. induction srcs as [|src srcs IH]; intros st H; cbn [sources_loop] in H.
  - injection H as <- <-. exists []. rewrite app_nil_r. split; [done|]. by case_bool_decide.
  - bind_inv H. destruct a as [|mt|mt gp rw rows].
    + by apply IH.
    + injection H as <- <-. exists []. rewrite app_nil_r. split; [done|]. by case_bool_decide.
    + bind_inv H. destruct a as [[[temp' d'] c'] out].
      apply prepare_ready_raw in E as ->.
      apply emit_inv in E0 as (Hout & _ & Hstore).
      apply IH in H as (new & Hraw & Hst). cbn [l_raw l_dict l_counter] in Hraw, Hst.
      exists (rows ++ new)%list. split; [by rewrite Hraw, app_assoc|].
      assert ((if bool_decide (L = 0%Qc) then (rows ++ new)%list
               else filter (fun r => ts_gt L r) (rows ++ new)%list)
              = (out ++ (if bool_decide (L = 0%Qc) then new
                         else filter (fun r => ts_gt L r) new))%list) as ->.
      { case_bool_decide; [by subst out|]. destruct Hout as [_ ->]. apply filter_app. }
      by rewrite store_records_app, Hstore.
Qed.

Lemma get_metrics_emitted b fin b' :
  get_metrics B b = Ok (fin, b') ->
  exists new,
    raw b' = (raw b ++ new)%list
    /\ store_records B (combined_name (_name b) (_tab b)) (parameters b') (_dict b) (_counter b)
         (if bool_decide (_lastts b = 0%Qc) then new
          else filter (fun r => ts_gt (_lastts b) r) new)
       = (_dict b', _counter b').
Proof.
  unfold get_metrics. intros H.
  assert (forall ps, store_records B (combined_name (_name b) (_tab b)) ps (_dict b) (_counter b)
                       (if bool_decide (_lastts b = 0%Qc) then []
                        else filter (fun r => ts_gt (_lastts b) r) [])
                     = (_dict b, _counter b)) as Hnil.
  { intros ps. by case_bool_decide. }
  destruct (sources b) as [|src srcs].
  { injection H as <- <-. exists []. by rewrite app_nil_r. }
  bind_inv H. destruct a as [[[sch types] ps]|].
  2:{ injection H as <- <-. exists []. cbn. by rewrite app_nil_r. }
  bind_inv H. destruct a as [fin1 st1].
  apply sources_loop_emitted in E0 as (new & Hraw & Hst). cbn in Hraw, Hst.
  exists new. by destruct fin1; injection H as <- <-.
Qed.

(** C9: every record that a collection emits is stored, as it is and with its
    [id], under the key of its own number: the records emitted, in their
    order, get the numbers from the counter on, and the counter advances by
    one for each of them.  The keys of distinct numbers are distinct, every
    record that the dictionary held before is still there unchanged, and
    nothing else is put into the dictionary.  This holds for every instance in
    which no key from the counter on is in use, and the instance after the
    collection is again such an instance. *)
Theorem C9_records_under_fresh_keys b fin b' :
  keys_unused (combined_name (_name b) (_tab b)) (_dict b) (_counter b) ->
  get_metrics B b = Ok (fin, b') ->
  _counter b'
  = (_counter b + N.of_nat (length (emitted_records (_lastts b) (raw b) (raw b'))))%N
  /\ (forall i r, emitted_records (_lastts b) (raw b) (raw b') !! i = Some r ->
        _dict b' !! record_key (combined_name (_name b) (_tab b)) (_counter b + N.of_nat i)
        = Some (with_id B (parameters b') r))
  /\ (forall n m, record_key (combined_name (_name b) (_tab b)) n
                  = record_key (combined_name (_name b) (_tab b)) m -> n = m)
  /\ _dict b ⊆ _dict b'
  /\ (forall k, is_Some (_dict b' !! k) ->
        is_Some (_dict b !! k)
        \/ exists i, i < length (emitted_records (_lastts b) (raw b) (raw b'))
                     /\ k = record_key (combined_name (_name b) (_tab b))
                                       (_counter b + N.of_nat i))
  /\ keys_unused (combined_name (_name b) (_tab b)) (_dict b') (_counter b').
Proof.
  intros Hun (new & Hraw & Hst)%get_metrics_emitted.
  assert (emitted_records (_lastts b) (raw b) (raw b')
          = if bool_decide (_lastts b = 0%Qc) then new
            else filter (fun r => ts_gt (_lastts b) r) new) as Hout.
  { unfold emitted_records. by rewrite Hraw, drop_app_length. }
  rewrite <-Hout in Hst.
  destruct (store_records_spec B _ _ _ _ _ _ _ Hun Hst) as (Hc & Hnew & Hsub & Hdom & Hun').
  split_and!; try done. apply record_key_inj.
Qed.

End FreshKeys.

Lemma C9_witness :
  exists b',
    get_metrics sample_builtins c9_unit = Ok (true, b')
    /\ _counter b' = 3%N
    /\ _dict b' !! "bench_0"
       = Some {[ "ts" := VFloat (Qc_of_Z 300); "system" := VStr "A"; "value" := VInt 8;
                 "node" := VStr "n2"; "_status" := VStr "SUCCESSFUL"; "id" := VStr "A";
                 "__prefix" := VStr "bm"; "__type" := VStr "benchmark" ]}
    /\ _dict b' !! "bench_1"
       = Some {[ "ts" := VFloat (Qc_of_Z 400); "system" := VStr "B"; "value" := VInt 9;
                 "node" := VStr "n2"; "_status" := VStr "SUCCESSFUL"; "id" := VStr "B";
                 "__prefix" := VStr "bm"; "__type" := VStr "benchmark" ]}
    /\ _dict b' !! "bench_2"
       = Some {[ "ts" := VFloat (Qc_of_Z 200); "system" := VStr "B"; "value" := VInt 7;
                 "_status" := VStr "SUCCESSFUL"; "id" := VStr "B";
                 "__prefix" := VStr "bm"; "__type" := VStr "benchmark" ]}.
Proof.
  destruct (get_metrics sample_builtins c9_unit) as [[fin b']|e] eqn:E;
    [|vm_compute in E; discriminate E].
  assert (keys_unused (combined_name (_name c9_unit) (_tab c9_unit))
                      (_dict c9_unit) (_counter c9_unit)) as Hun.
  { intros n _. apply lookup_empty. }
  pose proof (C9_records_under_fresh_keys sample_builtins c9_unit fin b' Hun E)
    as (Hc & Hnew & _).
  pose proof (f_equal (fun res : result (bool * BenchRepo) =>
                         match res with Ok (f, _) => f | Raise _ => false end) E) as Hfin.
  pose proof (f_equal (fun res : result (bool * BenchRepo) =>
                         match res with Ok (_, b) => raw b | Raise _ => [] end) E) as Hraw.
  pose proof (f_equal (fun res : result (bool * BenchRepo) =>
                         match res with Ok (_, b) => parameters b | Raise _ => [] end) E)
    as Hps.
  cbv beta iota in Hfin, Hraw, Hps. rewrite <-Hraw, <-Hps in Hnew. rewrite <-Hraw in Hc.
  rewrite <-Hfin. clear E Hfin Hraw Hps Hun.
  exists b'. split; [vm_compute; reflexivity|]. split; [rewrite Hc; vm_compute; reflexivity|].
  pose proof (Hnew 0 _ ltac:(vm_compute; reflexivity)) as H0.
  pose proof (Hnew 1 _ ltac:(vm_compute; reflexivity)) as H1.
  pose proof (Hnew 2 _ ltac:(vm_compute; reflexivity)) as H2.
  vm_compute in H0, H1, H2. vm_compute. exact (conj H0 (conj H1 H2)).
Defined.

(** ** A file without a timestamp *)

Section MissingTimestamp.

Context (B : builtins).

Lemma prepare_abort cfg sch mt gp raw_data src acc first more :
  collect B cfg sch mt src = Ok (Some (acc, first :: more)) ->
  first !! "ts" = None ->
  prepare B cfg sch mt gp raw_data src = Ok (Abort (metrics_types acc)).
Proof. intros Hc Hts. unfold prepare. rewrite Hc. simpl. by rewrite Hts. Qed.

(** C5, amended: when the files [pre] have been processed and the first
    record of the next file [src] has no [ts] after header remapping, derived
    metrics, common fields and pattern filters, [get_metrics] returns [False]
    at once: the dictionary holds the records of [pre] only, the watermark is
    not advanced, and the files [rest] after [src] have no part in the
    result. *)
Theorem C5_missing_ts_aborts_collection (b : BenchRepo) pre src rest sch types ps st
    acc first more :
  sources b = (pre ++ src :: rest)%list ->
  resolve_schema (config b) (parameters b) = Ok (Some (sch, types, ps)) ->
  sources_loop B (config b) sch (combined_name (_name b) (_tab b)) ps (_lastts b)
    {| l_metrics := types;
       l_graphparameters := init_graphparameters (config b) (graphparameters b);
       l_raw := raw b; l_lastts_temp := 0%Qc; l_dict := _dict b;
       l_counter := _counter b |} pre = Ok (true, st) ->
  collect B (config b) sch (l_metrics st) src = Ok (Some (acc, first :: more)) ->
  first !! "ts" = None ->
  exists b',
    get_metrics B b = Ok (false, b')
    /\ _lastts b' = _lastts b /\ _dict b' = l_dict st /\ raw b' = l_raw st.
Proof.
  intros Hsrc Hsch Hpre Hc Hts. unfold get_metrics. rewrite Hsrc, Hsch.
  destruct (pre ++ src :: rest)%list as [|s0 l0] eqn:Hl.
  { by destruct pre. }
  rewrite <-Hl. cbn [rbind]. rewrite sources_loop_app, Hpre. cbn -[after_loop].
  rewrite (prepare_abort _ _ _ _ _ _ _ _ _ Hc Hts). cbn -[after_loop].
  eexists. split; [reflexivity|]. done.
Qed.

End MissingTimestamp.

Lemma C5_witness :
  exists b', get_metrics sample_builtins (c5_unit [c5_file_no_ts; c5_file_ok]) = Ok (false, b')
             /\ _dict b' = ∅.
Proof.
  edestruct (C5_missing_ts_aborts_collection sample_builtins
               (c5_unit [c5_file_no_ts; c5_file_ok]) [] c5_file_no_ts [c5_file_ok])
    as (b' & Hrun & _ & Hd & _).
  - reflexivity.
  - vm_compute. reflexivity.
  - reflexivity.
  - vm_compute. reflexivity.
  - vm_compute. reflexivity.
  - exists b'. split; [exact Hrun|exact Hd].
Defined.

(** C5 as stated fails: the file without [ts] is not skipped but ends the
    collection, so the later file, which alone yields a record, is never
    processed. *)
Lemma C5_counterexample :
  (exists b', get_metrics sample_builtins (c5_unit [c5_file_no_ts; c5_file_ok]) = Ok (false, b')
              /\ _dict b' = ∅)
  /\ (exists b', get_metrics sample_builtins (c5_unit [c5_file_ok]) = Ok (true, b')
                 /\ is_Some (_dict b' !! "bench_0")).
Proof.
  split; eexists; (split; [vm_compute; reflexivity|]).
  - reflexivity.
  - vm_compute. eexists. reflexivity.
Qed.

(** ** The key set of the records of a file *)

Section RecordKeySets.

Context (B : builtins).

Lemma foldM_ok_ind {A S} (P : S -> Prop) (f : S -> A -> result S) l s s' :
  (forall s x s', P s -> f s x = Ok s' -> P s') ->
  P s -> foldM f s l = Ok s' -> P s'.
Proof.
  intros Hstep. revert s. induction l as [|x l IH]; simpl; intros s Hs H.
  - by inversion H; subst.
  - bind_inv H. eauto.
Qed.

Lemma mapM_ok_Forall {A C} (P : A -> Prop) (Q : C -> Prop) (f : A -> result C) l l' :
  (forall x y, P x -> f x = Ok y -> Q y) ->
  Forall P l -> mapM f l = Ok l' -> Forall Q l'.
Proof.
  intros Hf HP H%mapM_ok_Forall2. induction H as [|x y l l' Hxy _ IH]; [constructor|].
  inversion HP; subst. constructor; eauto.
Qed.

Lemma headers_dom (hd : list (string * string)) (line : row) (init : row) :
  dom (foldl (fun (cl : row) '(key_old, key_new) =>
                <[key_new := default (VStr "") (line !! key_old)]> cl) init hd)
  = list_to_set hd.*2 ∪ dom init.
Proof.
  revert init. induction hd as [|[ko kn] hd IH]; intros init; simpl.
  - set_solver.
  - rewrite IH, dom_insert_L. set_solver.
Qed.

Lemma build_line_dom hd calc ms line cl :
  build_line B hd calc ms line = Ok cl ->
  dom cl = list_to_set hd.*2 ∪ list_to_set calc.*1.
Proof.
  unfold build_line.
  set (init := foldl _ ∅ hd).
  assert (dom init = list_to_set hd.*2) as <-.
  { unfold init. rewrite headers_dom. set_solver. }
  clearbody init. revert init. induction calc as [|[key formula] calc IH];
    simpl; intros init H.
  - inversion H; subst. set_solver.
  - bind_inv H. bind_inv E. inversion E; subst.
    rewrite (IH _ H), dom_insert_L. set_solver.
Qed.

Lemma read_lines_dom sch ms lines rows :
  read_lines B sch ms lines = Ok rows ->
  Forall (fun r : row => dom r = list_to_set (headers sch).*2 ∪ list_to_set (calc_headers sch).*1)
         rows.
Proof.
  revert rows. induction lines as [|line lines IH]; simpl; intros rows H.
  - inversion H. constructor.
  - destruct (match ts_csv_header sch with Some _ => _ | None => _ end); [eauto|].
    bind_inv H. bind_inv H. inversion H; subst. constructor; [|eauto].
    by eapply build_line_dom.
Qed.

Lemma convert_key_dom ms key mtype (r r' : row) :
  convert_key B ms key mtype r = Ok r' -> dom r' = dom r.
Proof.
  unfold convert_key. destruct (ms !! key) as [[sp|]|]; [|done..].
  intros H. bind_inv H. unfold getitem in E.
  destruct (r !! key) as [v|] eqn:Hk; [|done]. inversion E; subst.
  unfold try_except in H.
  destruct (convert_data B a _ _) as [v'|e]; simpl in H.
  - inversion H; subst. rewrite dom_insert_L.
    apply elem_of_dom_2 in Hk. set_solver.
  - case_decide; [|done]. by inversion H.
Qed.

Lemma convert_all_dom sch ms mt (K : gset string) rows rows' :
  Forall (fun r : row => dom r = K) rows ->
  convert_all B sch ms mt rows = Ok rows' ->
  Forall (fun r : row => dom r = K) rows'.
Proof.
  unfold convert_all. intros HK H. revert H.
  apply (foldM_ok_ind (fun l => Forall (fun r : row => dom r = K) l)); [|done].
  intros l key l' Hl Hstep. destruct (mt !! key) as [mtype|]; [|done].
  eapply mapM_ok_Forall; [|exact Hl|exact Hstep].
  intros r r' Hr Hc. by rewrite (convert_key_dom _ _ _ _ _ Hc).
Qed.

Lemma delete_elem_of {A} (l : list A) i x : x ∈ delete i l -> x ∈ l.
Proof. intros H. eapply elem_of_sublist; [done|apply sublist_delete]. Qed.

Lemma apply_pattern_list_elem_of exclude include l l' x :
  apply_pattern_list B exclude include l = Ok l' -> x ∈ l' -> x ∈ l.
Proof.
  unfold apply_pattern_list. intros H. bind_inv H. inversion H; subst. clear.
  generalize (reverse a). intros idxs. revert l.
  induction idxs as [|i idxs IH]; simpl; intros l Hx; [done|].
  apply IH in Hx. by eapply delete_elem_of.
Qed.

Lemma classify_metric_dom sch mt (acc : pyval * row) metric :
  dom (classify_metric B sch mt acc metric).2 = dom acc.2.
Proof.
  destruct acc as [st line]. unfold classify_metric.
  destruct (line !! metric) as [v|] eqn:Hk; [|done].
  apply elem_of_dom_2 in Hk.
  destruct (negb _); [done|]. destruct (bool_decide _); simpl; rewrite dom_insert_L; set_solver.
Qed.

Lemma classify_dom sch mt (line : row) :
  dom (classify B sch mt line) = {["_status"]} ∪ dom line.
Proof.
  unfold classify.
  assert (forall l acc, dom (foldl (classify_metric B sch mt) acc l).2 = dom acc.2) as Hfold.
  { induction l as [|m l IH]; intros acc; simpl; [done|].
    by rewrite IH, classify_metric_dom. }
  specialize (Hfold (used_metrics sch) (default (VStr "SUCCESSFUL") (line !! "_status"), line)).
  destruct (foldl _ _ _) as [st line']. simpl in Hfold. by rewrite dom_insert_L, Hfold.
Qed.

Lemma with_id_dom ps (r : row) : dom (with_id B ps r) = {["id"]} ∪ dom r.
Proof. unfold with_id. by rewrite dom_insert_L. Qed.

(** The key set of the records that a file hands to the watermark cut. *)
Lemma prepare_dom cfg sch mt gp raw_data src mt' gp' raw' rows :
  prepare B cfg sch mt gp raw_data src = Ok (Ready mt' gp' raw' rows) ->
  exists acc : common,
    Forall (fun r : row =>
              dom r = {["_status"]} ∪ dom (common_data acc)
                      ∪ list_to_set (headers sch).*2 ∪ list_to_set (calc_headers sch).*1)
           rows.
Proof.
  unfold prepare. intros H. bind_inv H. destruct a as [[acc [|first rest]]|]; [done| |done].
  destruct (negb _); [done|]. bind_inv H. inversion H; subst. clear H E0.
  exists acc. unfold collect in E.
  destruct (negb (_ || _)); [done|]. destruct (data src) as [|l0 ls]; [done|].
  destruct (negb (forallb _ _)); [done|].
  bind_inv E. bind_inv E. bind_inv E. bind_inv E. inversion E; subst. clear E.
  apply read_lines_dom in E0. apply (convert_all_dom _ _ _ _ _ _ E0) in E1.
  apply list.Forall_forall. intros r' Hr'.
  change (r' ∈ classify B sch (metrics_types acc) <$> (first :: rest)) in Hr'.
  apply list_elem_of_fmap in Hr' as (r & -> & Hr).
  rewrite classify_dom.
  eapply apply_pattern_list_elem_of in Hr; [|exact E3].
  apply list_elem_of_fmap in Hr as (r0 & -> & Hr0).
  rewrite list.Forall_forall in E1. rewrite dom_union_L, (E1 _ Hr0). set_solver.
Qed.

Lemma emit_out_elem_of cname ps L temp dict counter rows temp' dict' counter' out r :
  emit B cname ps L temp dict counter rows = Ok (temp', dict', counter', out) ->
  r ∈ out -> r ∈ rows.
Proof.
  intros (Hout & _)%emit_inv Hr. case_bool_decide; [by subst|].
  destruct Hout as [_ ->]. by apply list_elem_of_filter in Hr as [_ ?].
Qed.


End RecordKeySets.

Lemma sample_schema_resolved :
  resolve_schema sample_config [] = Ok (Some (sample_schema, sample_types, sample_parameters)).
Proof. vm_compute. reflexivity. Qed.



(** ** The exclude/include pattern filter *)

Section PatternFilters.

Context (B : builtins).

Lemma search_list_check_list l name unit :
  forallb is_name_item l = true ->
  search_list B l (VStr name) = check_list B l (VStr name) unit.
Proof.
  induction l as [|[p|d|] l IH]; simpl; intros H; [done| |done..].
  destruct (matched B p (VStr name)) as [[|]|]; simpl; auto.
Qed.

Lemma search_patterns_check_unit p name unit :
  names_only p = true ->
  search_patterns B p (VStr name) = check_unit B (VStr name) unit p.
Proof.
  destruct p as [s|l|[|? ?]]; simpl; intros H; [done| |done..].
  by apply search_list_check_list.
Qed.

Lemma check_list_fields l n1 n2 unit :
  forallb (fun i => negb (is_name_item i)) l = true ->
  check_list B l n1 unit = check_list B l n2 unit.
Proof.
  induction l as [|[p|d|] l IH]; simpl; intros H; [done|done| |auto].
  destruct (check_dict B d unit) as [[|]|]; simpl; auto.
Qed.

Lemma check_unit_fields p n1 n2 unit :
  pat_truthy p = true -> fields_only p = true ->
  check_unit B n1 unit p = check_unit B n2 unit p.
Proof.
  unfold fields_only. intros -> H. simpl in H.
  destruct p as [s|l|d]; simpl; [done| |done]. by apply check_list_fields.
Qed.

Lemma search_list_fields l name :
  forallb (fun i => negb (is_name_item i)) l = true ->
  search_list B l (VStr name) = Ok false.
Proof. induction l as [|[p|d|] l IH]; simpl; intros H; auto. done. Qed.

Lemma search_patterns_fields p name :
  pat_truthy p = true -> fields_only p = true ->
  search_patterns B p (VStr name) = Ok false.
Proof.
  unfold fields_only. intros -> H. simpl in H.
  destruct p as [s|l|d]; simpl; [done| |done]. by apply search_list_fields.
Qed.

(** C8, amended: with rules that are a string or a list of strings, a name
    of a set is removed exactly when the record of that name in a name-keyed
    mapping is removed.  With field rules, the decision on a record does not
    depend on the container: a record of a list and the same record of a
    mapping are removed alike; on a set of names field rules never match, so
    that an exclusion removes nothing and an inclusion that is not empty
    removes every name. *)
Theorem C8_pattern_decisions :
  (forall exclude include name unit,
      names_only exclude = true -> names_only include = true ->
      removed_from_set B exclude include name
      = removed_unit B exclude include (VStr name) unit)
  /\ (forall exclude include idx name unit,
        fields_only exclude = true -> fields_only include = true ->
        removed_unit B exclude include (VInt idx) unit
        = removed_unit B exclude include (VStr name) unit)
  /\ (forall exclude include name,
        fields_only exclude = true -> fields_only include = true ->
        removed_from_set B exclude include name = Ok (pat_truthy include)).
Proof.
  split_and!.
  - intros ex inc name unit Hex Hinc. unfold removed_from_set, removed_unit.
    by rewrite !(search_patterns_check_unit _ name unit).
  - intros ex inc idx name unit Hex Hinc. unfold removed_unit.
    destruct (pat_truthy ex) eqn:Tex, (pat_truthy inc) eqn:Tinc; simpl;
      rewrite ?(check_unit_fields ex (VInt idx) (VStr name)),
              ?(check_unit_fields inc (VInt idx) (VStr name)) by done; done.
  - intros ex inc name Hex Hinc. unfold removed_from_set.
    destruct (pat_truthy ex) eqn:Tex, (pat_truthy inc) eqn:Tinc; simpl;
      rewrite ?search_patterns_fields by done; done.
Qed.

(** The loop over a list deletes exactly the marked records. *)
Lemma list_to_remove_spec exclude include (l pre : list row) idx rm :
  list_to_remove B exclude include idx l = Ok rm ->
  length pre = idx ->
  foldl (fun (l : list row) i => delete i l) (pre ++ l)%list (reverse rm)
  = (pre ++ kept_list B exclude include idx l)%list.
Proof.
  revert pre idx rm. induction l as [|u l IH]; simpl; intros pre idx rm H Hlen.
  - by inversion H.
  - bind_inv H. bind_inv H. inversion H; subst. clear H.
    specialize (IH (pre ++ [u])%list (S (length pre)) _ E0).
    rewrite length_app, Nat.add_1_r, <-!(assoc_L app) in IH. specialize (IH eq_refl).
    simpl in IH. rewrite E. destruct a.
    + rewrite reverse_cons, foldl_app, IH. simpl.
      rewrite delete_middle. done.
    + done.
Qed.

Lemma apply_pattern_list_spec exclude include l l' :
  apply_pattern_list B exclude include l = Ok l' ->
  l' = kept_list B exclude include 0 l.
Proof.
  unfold apply_pattern_list. intros H. bind_inv H. inversion H; subst.
  by apply (list_to_remove_spec _ _ l []).
Qed.


Lemma set_loop_spec exclude include (l : list string) (acc acc' : gset string) :
  foldM (fun (acc : gset string) unit =>
           b ← removed_from_set B exclude include unit;
           Ok (if b then {[unit]} ∪ acc else acc)) acc l = Ok acc' ->
  (forall x, x ∈ l -> is_ok (removed_from_set B exclude include x) = true)
  /\ (forall n, n ∈ acc' <-> n ∈ acc \/ (n ∈ l /\ removed_from_set B exclude include n = Ok true)).
Proof.
  revert acc. induction l as [|x l IH]; simpl; intros acc H.
  - inversion H; subst. split; [by intros x Hx%elem_of_nil|].
    intros n. split; [by left|]. intros [?|[Hn%elem_of_nil _]]; done.
  - bind_inv H. bind_inv E. inversion E; subst. clear E.
    apply IH in H as [Hok Hspec]. split.
    + intros y [->|Hy]%elem_of_cons; [by rewrite E0|auto].
    + intros n. rewrite Hspec, elem_of_cons. destruct a0.
      * rewrite elem_of_union, elem_of_singleton. split.
        -- intros [[->|?]|[? ?]]; [right|by left|right]; split; auto.
        -- intros [?|[[->|?] ?]]; [left; by right|left; by left|right; done].
      * split.
        -- intros [?|[? ?]]; [by left|right; split; auto].
        -- intros [?|[[->|?] ?]]; [by left|congruence|by right].
Qed.

(** What [apply_pattern] leaves of a set of names. *)
Lemma apply_pattern_set_spec exclude include (elems elems' : gset string) :
  apply_pattern_set B exclude include elems = Ok elems' ->
  forall n, n ∈ elems' <-> n ∈ elems /\ removed_from_set B exclude include n = Ok false.
Proof.
  unfold apply_pattern_set. intros H. bind_inv H. inversion H; subst. clear H.
  apply set_loop_spec in E as [Hok Hspec]. intros n.
  rewrite elem_of_difference, Hspec, elem_of_elements. split.
  - intros [Hn Hno]. split; [done|]. specialize (Hok n (proj2 (elem_of_elements _ _) Hn)).
    destruct (removed_from_set B exclude include n) as [[|]|] eqn:Hd; simpl in Hok; [|done..].
    destruct Hno. right. done.
  - intros [Hn Hd]. split; [done|]. intros [Hn'%elem_of_empty|[_ ?]]; [done|congruence].
Qed.

Lemma dict_loop_spec exclude include (l : list (string * row)) (acc acc' : list string) :
  foldM (fun (acc : list string) '(unitname, unit) =>
           b ← removed_unit B exclude include (VStr unitname) unit;
           Ok (if b then unitname :: acc else acc)) acc l = Ok acc' ->
  (forall n u, (n, u) ∈ l -> is_ok (removed_unit B exclude include (VStr n) u) = true)
  /\ (forall n, n ∈ acc' <->
        n ∈ acc \/ exists u, (n, u) ∈ l /\ removed_unit B exclude include (VStr n) u = Ok true).
Proof.
  revert acc. induction l as [|[x ux] l IH]; simpl; intros acc H.
  - inversion H; subst. split; [by intros n u Hx%elem_of_nil|].
    intros n. split; [by left|]. intros [?|(u & Hn%elem_of_nil & _)]; done.
  - bind_inv H. bind_inv E. inversion E; subst. clear E.
    apply IH in H as [Hok Hspec]. split.
    + intros n u [[= -> ->]|Hy]%elem_of_cons; [by rewrite E0|eauto].
    + intros n. rewrite Hspec. destruct a0.
      * rewrite elem_of_cons. split.
        -- intros [[->|?]|(u & ? & ?)]; [right|by left|right].
           ++ exists ux. split; [left|done].
           ++ exists u. split; [by right|done].
        -- intros [?|(u & [[= -> ->]|?]%elem_of_cons & ?)];
             [left; by right|left; by left|right; eauto].
      * split.
        -- intros [?|(u & ? & ?)]; [by left|right; exists u; split; [by right|done]].
        -- intros [?|(u & [[= -> ->]|?]%elem_of_cons & ?)]; [by left|congruence|right; eauto].
Qed.

Lemma lookup_foldr_delete_list (m : gmap string row) (l : list string) k :
  foldr (fun unitname (m : gmap string row) => delete unitname m) m l !! k
  = if bool_decide (k ∈ l) then None else m !! k.
Proof.
  induction l as [|x l IH]; simpl; [done|].
  destruct (decide (x = k)) as [->|Hne].
  - rewrite lookup_delete_eq, bool_decide_eq_true_2; [done|left].
  - rewrite lookup_delete_ne, IH by done.
    rewrite (bool_decide_ext (k ∈ x :: l) (k ∈ l)); [done|].
    rewrite elem_of_cons. naive_solver.
Qed.

(** What [apply_pattern] leaves of a name-keyed mapping of records. *)
Lemma apply_pattern_dict_spec exclude include (elems elems' : gmap string row) :
  apply_pattern_dict B exclude include elems = Ok elems' ->
  forall n u, elems' !! n = Some u <->
              elems !! n = Some u /\ removed_unit B exclude include (VStr n) u = Ok false.
Proof.
  unfold apply_pattern_dict. intros H. bind_inv H. inversion H; subst. clear H.
  apply dict_loop_spec in E as [Hok Hspec]. intros n u.
  rewrite lookup_foldr_delete_list. case_bool_decide as Hin.
  - split; [done|]. intros [Hn Hd]. apply Hspec in Hin as [Hin%elem_of_nil|(u' & Hu' & Hd')]; [done|].
    apply elem_of_map_to_list in Hu'. congruence.
  - split; [|by intros [? _]]. intros Hn. split; [done|].
    specialize (Hok n u (proj2 (elem_of_map_to_list _ _ _) Hn)).
    destruct (removed_unit B exclude include (VStr n) u) as [[|]|] eqn:Hd; simpl in Hok; [|done..].
    destruct Hin. apply Hspec. right. exists u. split; [|done]. by apply elem_of_map_to_list.
Qed.

End PatternFilters.

Lemma C8_witness :
  removed_from_set sample_builtins c8_names (PDict []) "results/a.csv"
  = removed_unit sample_builtins c8_names (PDict []) (VStr "results/a.csv") c8_record
  /\ removed_unit sample_builtins (PDict []) c8_include (VInt 0) c8_record
     = removed_unit sample_builtins (PDict []) c8_include (VStr "x") c8_record
  /\ removed_from_set sample_builtins (PDict []) c8_include "x" = Ok true.
Proof.
  destruct (C8_pattern_decisions sample_builtins) as (H1 & H2 & H3). split_and!.
  - apply H1; reflexivity.
  - apply H2; reflexivity.
  - apply (H3 (PDict []) c8_include "x"); reflexivity.
Defined.

(** C8 as stated fails for a field rule: under the same inclusion rule on the
    field [system], the name [x] is removed from a set of names, while the
    record of that name, whose field matches, is kept in a mapping. *)
Lemma C8_counterexample :
  apply_pattern_set sample_builtins (PDict []) c8_include {["x"]} = Ok ∅
  /\ apply_pattern_dict sample_builtins (PDict []) c8_include {["x" := c8_record]}
     = Ok {["x" := c8_record]}
  /\ apply_pattern_list sample_builtins (PDict []) c8_include [c8_record] = Ok [c8_record].
Proof. split_and!; vm_compute; reflexivity. Qed.

(** ** Aggregator: the valid combinations *)

Section Sorting.
Context {A : Type} (lt : A -> A -> result bool).

Lemma insert_sorted_perm x l l' : insert_sorted lt x l = Ok l' -> l' ≡ₚ x :: l.
Proof.
  revert l'. induction l as [|y l IH]; simpl; intros l' H.
  - by inversion H.
  - bind_inv H. destruct a.
    + bind_inv H. inversion H; subst. rewrite (IH _ E0). apply Permutation_swap.
    + by inversion H.
Qed.

Lemma py_sort_perm l l' : py_sort lt l = Ok l' -> l' ≡ₚ l.
Proof.
  revert l'. induction l as [|x l IH]; simpl; intros l' H.
  - by inversion H.
  - bind_inv H. apply insert_sorted_perm in H. rewrite H. by rewrite (IH _ E).
Qed.

Hypothesis lt_asym : forall a b, lt a b = Ok true -> lt b a = Ok false.

Lemma insert_sorted_Sorted x l l' :
  Sorted (fun a b => lt b a = Ok false) l ->
  insert_sorted lt x l = Ok l' ->
  Sorted (fun a b => lt b a = Ok false) l'.
Proof.
  revert l'. induction l as [|y l IH]; simpl; intros l' Hs H.
  - inversion H. repeat constructor.
  - bind_inv H. destruct a.
    + bind_inv H. inversion H; subst. clear H.
      apply Sorted_inv in Hs as [Hs Hhd]. constructor; [by apply IH|].
      destruct l as [|z l]; simpl in E0.
      * inversion E0. constructor. by apply lt_asym.
      * bind_inv E0. destruct a0.
        -- bind_inv E0. inversion E0; subst. constructor. by inversion Hhd.
        -- inversion E0; subst. constructor. by apply lt_asym.
    + inversion H; subst. constructor; [done|]. by constructor.
Qed.

Lemma py_sort_Sorted l l' :
  py_sort lt l = Ok l' -> Sorted (fun a b => lt b a = Ok false) l'.
Proof.
  revert l'. induction l as [|x l IH]; simpl; intros l' H.
  - inversion H. constructor.
  - bind_inv H. eapply insert_sorted_Sorted; [|done]. by apply IH.
Qed.

End Sorting.

Lemma ltb_asym s t : String.ltb s t = true -> String.ltb t s = false.
Proof.
  unfold String.ltb. rewrite (String.compare_antisym t s).
  by destruct (String.compare s t).
Qed.

Lemma py_eqb_sym a b : py_eqb a b = py_eqb b a.
Proof.
  unfold py_eqb. destruct (num_of a) as [x|] eqn:Ha, (num_of b) as [y|] eqn:Hb; try done.
  - apply bool_decide_ext. naive_solver.
  - destruct a, b; try done. apply bool_decide_ext. naive_solver.
Qed.

Lemma py_lt_asym a b : py_lt a b = Ok true -> py_lt b a = Ok false.
Proof.
  unfold py_lt. destruct (num_of a) as [x|] eqn:Ha, (num_of b) as [y|] eqn:Hb; try done.
  - intros [= H%bool_decide_eq_true]. f_equal. apply bool_decide_eq_false.
    by apply Qcle_ngt, Qclt_le_weak.
  - destruct a, b; try done. intros [= H]. by rewrite ltb_asym.
Qed.

Lemma pair_eqb_sym a b : pair_eqb a b = pair_eqb b a.
Proof.
  unfold pair_eqb. rewrite py_eqb_sym. f_equal. apply bool_decide_ext. naive_solver.
Qed.

Lemma pair_lt_asym a b : pair_lt a b = Ok true -> pair_lt b a = Ok false.
Proof.
  unfold pair_lt. rewrite (py_eqb_sym b.2 a.2).
  rewrite (bool_decide_ext (b.1 = a.1) (a.1 = b.1)) by naive_solver.
  case_bool_decide.
  - destruct (py_eqb a.2 b.2); [done|]. apply py_lt_asym.
  - intros [= Hlt]. by rewrite ltb_asym.
Qed.

Lemma tuple_lt_asym a b : tuple_lt a b = Ok true -> tuple_lt b a = Ok false.
Proof.
  revert b. induction a as [|x a IH]; intros [|y b]; simpl; try done.
  rewrite (pair_eqb_sym y x). destruct (pair_eqb x y); [apply IH|apply pair_lt_asym].
Qed.

Lemma Sorted_fmap_Forall {A C} (P : A -> Prop) (R : relation A) (R2 : relation C)
    (f : A -> C) l :
  (forall x y, P x -> P y -> R x y -> R2 (f x) (f y)) ->
  Forall P l -> Sorted R l -> Sorted R2 (f <$> l).
Proof.
  intros Hf HP Hs. induction Hs as [|x l Hs IH Hhd]; [constructor|].
  inversion HP as [|? ? Hx HPl]; subst. simpl. constructor; [by apply IH|].
  destruct Hhd as [|y l Hxy]; simpl; constructor.
  inversion HPl; subst. by apply Hf.
Qed.

Lemma product_length ls c : c ∈ product ls -> length c = length ls.
Proof.
  revert c. induction ls as [|l ls IH]; simpl; intros c Hc.
  - by apply list_elem_of_singleton in Hc as ->.
  - apply list_elem_of_In, in_flat_map in Hc as (x & _ & Hc).
    apply list_elem_of_In, list_elem_of_fmap in Hc as (c' & -> & Hc'). simpl. f_equal. auto.
Qed.

Lemma check_items_true metrics raw_data comb items valid :
  check_items metrics raw_data comb items valid = Ok true ->
  valid = true
  /\ (forall k v, (k, v) ∈ items ->
        exists t d, metrics !! k = Some t /\ default_of t = Ok d /\ py_eqb d v = false)
  /\ (items <> [] -> witnessed comb raw_data = true).
Proof.
  revert valid. induction items as [|[key value] items IH]; simpl; intros valid H.
  - inversion H. split_and!; [done| |done]. by intros k v Hk%elem_of_nil.
  - destruct (metrics !! key) as [t|] eqn:Ht; [|done]. bind_inv H.
    destruct (py_eqb a value) eqn:Hd.
    { by apply IH in H as [? _]. }
    destruct (witnessed comb raw_data) eqn:Hw; simpl in H.
    2:{ by apply IH in H as [? _]. }
    apply IH in H as (-> & Hitems & _). split_and!; [done| |done].
    intros k v [[= -> ->]|Hk]%elem_of_cons; [eauto 6|eauto].
Qed.

Lemma keep_valid_spec metrics raw_data combs valid :
  keep_valid metrics raw_data combs = Ok valid ->
  forall c, c ∈ valid -> c ∈ combs /\ check_items metrics raw_data c c true = Ok true.
Proof.
  revert valid. induction combs as [|comb combs IH]; simpl; intros valid H c Hc.
  - inversion H; subst. by apply elem_of_nil in Hc.
  - bind_inv H. bind_inv H. inversion H; subst. clear H. destruct a.
    + apply elem_of_cons in Hc as [->|Hc]; [split; [left|done]|].
      destruct (IH _ E0 _ Hc). split; [by right|done].
    + destruct (IH _ E0 _ Hc). split; [by right|done].
Qed.

Lemma ltb_total s t : s <> t -> String.ltb t s = false -> String.ltb s t = true.
Proof.
  unfold String.ltb. intros Hne. rewrite (String.compare_antisym t s).
  destruct (String.compare s t) eqn:Hc; try done.
  by apply String.compare_eq_iff in Hc.
Qed.

Lemma py_lt_total a b : py_eqb a b = false -> py_lt b a = Ok false -> py_lt a b = Ok true.
Proof.
  unfold py_eqb, py_lt.
  destruct (num_of a) as [x|] eqn:Ha, (num_of b) as [y|] eqn:Hb; try done.
  - intros Hne%bool_decide_eq_false [= Hlt%bool_decide_eq_false]. f_equal.
    apply bool_decide_eq_true. apply Qcnot_lt_le in Hlt.
    by destruct (Qcle_lt_or_eq _ _ Hlt).
  - destruct a, b; try done. intros Hne%bool_decide_eq_false [= Hlt]. f_equal.
    apply ltb_total; [congruence|done].
Qed.

(** The comparison of two tuples of pairs, as the order of the claim. *)
Lemma tuple_lt_pairs_le ka kb : tuple_lt kb ka = Ok false -> pairs_le ka kb.
Proof.
  revert ka. induction kb as [|y kb IH]; intros [|x ka]; simpl; intros H;
    [constructor|done|constructor|].
  destruct (pair_eqb y x) eqn:He.
  - unfold pair_eqb in He. apply andb_true_iff in He as [Hk%bool_decide_eq_true Hv].
    apply pairs_le_same; [done|by rewrite py_eqb_sym|by apply IH].
  - unfold pair_eqb in He. unfold pair_lt in H. case_bool_decide as Hk.
    + cbn [andb] in He. rewrite He in H.
      apply pairs_le_value; [done|]. apply py_lt_total; [by rewrite py_eqb_sym|done].
    + injection H as H. apply pairs_le_key. apply ltb_total; [congruence|done].
Qed.

(** The sort key of a combination is its sorted pairs. *)
Lemma sort_key_sorted_pairs comb k :
  NoDup comb.*1 -> sort_key comb = Ok k -> sorted_pairs comb k.
Proof.
  unfold sort_key. intros Hnd H.
  pose proof (py_sort_perm _ _ _ H) as Hperm.
  pose proof (py_sort_Sorted pair_lt pair_lt_asym _ _ H) as Hs.
  split; [done|]. rewrite <-Hperm in Hnd. clear H Hperm.
  induction Hs as [|x l Hs IH Hhd]; [constructor|].
  rewrite fmap_cons in Hnd. apply NoDup_cons in Hnd as [Hx Hnd].
  constructor; [by apply IH|].
  destruct Hhd as [|y l Hxy]; constructor.
  unfold pair_lt in Hxy. case_bool_decide as Hk.
  - exfalso. apply Hx. rewrite fmap_cons, <-Hk. left.
  - injection Hxy as Hxy. apply ltb_total; [congruence|done].
Qed.

Lemma sort_combinations_spec l l' :
  Forall (fun comb : combination => NoDup comb.*1) l ->
  sort_combinations l = Ok l' -> l' ≡ₚ l /\ Sorted combination_le l'.
Proof.
  unfold sort_combinations. intros Hnd H. bind_inv H. bind_inv H. inversion H; subst. clear H.
  assert (a.*2 = l /\ Forall (fun kc => sorted_pairs kc.2 kc.1) a) as [Hl Hkeys].
  { apply mapM_ok_Forall2 in E. clear E0.
    induction E as [|c kc l a Hc _ IH]; [done|].
    apply Forall_cons in Hnd as [Hc1 Hnd]. destruct (IH Hnd) as [IH1 IH2].
    bind_inv Hc. inversion Hc; subst. simpl. split; [by f_equal|].
    constructor; [|done]. by apply sort_key_sorted_pairs. }
  pose proof (py_sort_perm _ _ _ E0) as Hperm. split.
  - by rewrite Hperm, Hl.
  - eapply (Sorted_fmap_Forall (fun kc => sorted_pairs kc.2 kc.1)).
    3:{ eapply py_sort_Sorted; [|done]. intros x y. apply tuple_lt_asym. }
    + intros x y Hx Hy Hxy. exists x.1, y.1. split_and!; [done..|].
      by apply tuple_lt_pairs_le.
    + by rewrite Hperm.
Qed.

(** C7: whenever [gen_footer_conf] gets its list of valid combinations, no
    combination of the list has a coordinate equal to the default of the type
    of its metric, every combination is a sub-mapping of a record of [raw],
    and the list is sorted by the sorted key/value pairs of its combinations:
    of two neighbours, the pairs of the first, put in the order of their
    keys, are not after those of the second.  The graph parameters are a
    dictionary: each of them is there once. *)
Theorem C7_valid_combinations metrics graphparameters raw_data l :
  NoDup graphparameters.*1 ->
  valid_combinations metrics graphparameters raw_data = Ok l ->
  Forall (fun comb => no_default metrics comb /\ witnessed comb raw_data = true) l
  /\ Sorted combination_le l.
Proof.
  unfold valid_combinations. intros Hnd H. bind_inv H.
  assert (forall c, c ∈ a ->
            c.*1 = graphparameters.*1
            /\ no_default metrics c /\ witnessed c raw_data = true) as Hall.
  { destruct graphparameters as [|gp0 gps].
    { inversion E. by intros c Hc%elem_of_nil. }
    intros c Hc. destruct (keep_valid_spec _ _ _ _ E _ Hc) as [Hin Hcheck].
    apply check_items_true in Hcheck as (_ & Hno & Hw).
    apply list_elem_of_fmap in Hin as (vals & -> & Hvals%product_length).
    split_and!; [|exact Hno|].
    - apply fst_zip. rewrite Hvals, !length_fmap. done.
    - apply Hw. destruct vals; [done|]. by destruct gp0. }
  apply sort_combinations_spec in H as [Hperm Hsorted].
  2:{ apply list.Forall_forall. intros c Hc. destruct (Hall c Hc) as [-> _]. done. }
  split; [|done]. rewrite Hperm. apply list.Forall_forall. intros c Hc.
  by destruct (Hall c Hc) as (_ & ? & ?).
Qed.

Lemma C7_witness :
  exists l, valid_combinations c7_metrics c7_graphparameters c7_raw = Ok l
    /\ l = [[("system", VStr "B"); ("nodes", VInt 1)]; [("system", VStr "A"); ("nodes", VInt 2)]]
    /\ Forall (fun comb => no_default c7_metrics comb /\ witnessed comb c7_raw = true) l
    /\ Sorted combination_le l.
Proof.
  eexists. split; [vm_compute; reflexivity|]. split; [reflexivity|].
  apply (C7_valid_combinations c7_metrics c7_graphparameters c7_raw).
  - apply (bool_decide_unpack (NoDup _)). vm_compute. exact I.
  - vm_compute. reflexivity.
Defined.

(** ** Accumulation: what an addition writes *)

Import Accumulation.

Lemma same_kind_refl o : same_kind o o.
Proof. by destruct o. Qed.

Lemma same_kind_trans o1 o2 o3 : same_kind o1 o2 -> same_kind o2 o3 -> same_kind o1 o3.
Proof. by destruct o1, o2, o3. Qed.

Lemma kinds_kept_refl h : kinds_kept h h.
Proof. intros l o Ho. exists o. split; [done|apply same_kind_refl]. Qed.

Lemma kinds_kept_trans h1 h2 h3 : kinds_kept h1 h2 -> kinds_kept h2 h3 -> kinds_kept h1 h3.
Proof.
  intros H1 H2 l o Ho. destruct (H1 _ _ Ho) as (o2 & Ho2 & Hk2).
  destruct (H2 _ _ Ho2) as (o3 & Ho3 & Hk3). exists o3. split; [done|].
  by eapply same_kind_trans.
Qed.

Lemma kinds_kept_is_dict h h' l : kinds_kept h h' -> is_dict h l -> is_dict h' l.
Proof.
  intros Hk [d Hd]. destruct (Hk _ _ Hd) as ([d'| |] & Ho' & Hs); [|done..]. by exists d'.
Qed.

Lemma kinds_kept_is_dict_inv h h' l :
  kinds_kept h h' -> l < length h -> is_dict h' l -> is_dict h l.
Proof.
  intros Hk Hl [d' Hd']. destruct (lookup_lt_is_Some_2 h l Hl) as [o Ho].
  destruct (Hk _ _ Ho) as (o' & Ho' & Hs). rewrite Hd' in Ho'. injection Ho' as <-.
  destruct o as [d| |]; [|done..]. by exists d.
Qed.

Section Frame.
Context (n : nat).

Lemma keeps_trans h1 h2 h3 :
  keeps n h1 h2 -> keeps n h2 h3 -> keeps n h1 h3.
Proof.
  intros (Hl1 & Ha1 & _ & Hk1) (Hl2 & Ha2 & Hc & Hk2). split_and!; [lia| |done|].
  - intros l Hl. by rewrite Ha2, Ha1.
  - by eapply kinds_kept_trans.
Qed.

Lemma keeps_refl h : closed n h -> keeps n h h.
Proof. intros Hc. split_and!; [lia|done|done|apply kinds_kept_refl]. Qed.

Lemma keeps_insert h l o o0 :
  n <= l -> closed n h -> h !! l = Some o0 -> same_kind o0 o ->
  (forall d, o = ODict d -> Forall (fresh_ref n) d.*2) ->
  keeps n h (<[l := o]> h).
Proof.
  intros Hl Hc Hl0 Hs Ho. pose proof (lookup_lt_Some _ _ _ Hl0) as Hlt. split_and!.
  - by rewrite length_insert.
  - intros l' Hl'. apply list_lookup_insert_ne. lia.
  - intros l' d Hl' Hd. destruct (decide (l = l')) as [->|Hne].
    + rewrite list_lookup_insert_eq in Hd by done. injection Hd as ->. by apply Ho.
    + rewrite list_lookup_insert_ne in Hd by done. by eapply Hc.
  - intros l' o' Ho'. destruct (decide (l = l')) as [->|Hne].
    + rewrite list_lookup_insert_eq by done. exists o. split; [done|]. congruence.
    + rewrite list_lookup_insert_ne by done. exists o'. split; [done|apply same_kind_refl].
Qed.

Lemma keeps_alloc h o :
  n <= length h -> closed n h ->
  (forall d, o = ODict d -> Forall (fresh_ref n) d.*2) ->
  keeps n h (h ++ [o]).
Proof.
  intros Hn Hc Ho. split_and!.
  - rewrite length_app. simpl. lia.
  - intros l Hl. apply lookup_app_l. lia.
  - intros l d Hl Hd. destruct (decide (l < length h)) as [Hlt|Hge].
    + rewrite lookup_app_l in Hd by done. by eapply Hc.
    + rewrite lookup_app_r in Hd by lia.
      destruct (l - length h) as [|k]; simpl in Hd; [|done]. injection Hd as ->. by apply Ho.
  - intros l o' Ho'. exists o'. split; [|apply same_kind_refl].
    rewrite lookup_app_l; [done|]. by eapply lookup_lt_Some.
Qed.

Lemma memo_ok_keeps h h' memo : memo_ok n h memo -> keeps n h h' -> memo_ok n h' memo.
Proof.
  intros Hm (Hlen & _ & _ & Hk) l l' Hl. destruct (Hm _ _ Hl) as (Hn & Hlt & Hd).
  split; [done|]. split; [lia|]. intros Hd'. eapply kinds_kept_is_dict; [done|].
  apply Hd. by eapply kinds_kept_is_dict_inv.
Qed.

Lemma memo_ok_insert h memo l l' :
  n <= l' -> l < length h -> (is_dict h l -> is_dict h l') ->
  memo_ok n h memo -> memo_ok n h (<[l := l']> memo).
Proof.
  intros Hl Hlt Hd Hm k k'. rewrite lookup_insert. case_decide; [|apply Hm].
  intros [= <-]. by subst.
Qed.

Lemma memo_ok_empty h : memo_ok n h ∅.
Proof. intros l l'. by rewrite lookup_empty. Qed.

Lemma Forall_snd_zip {A C} (P : C -> Prop) (ks : list A) (rs : list C) :
  Forall P rs -> Forall P (zip ks rs).*2.
Proof.
  intros H. revert ks. induction H as [|r rs Hr _ IH]; intros [|k ks]; simpl;
    try constructor; auto.
Qed.

Lemma Forall_snd_od_set (P : ref -> Prop) key r (d : list (string * ref)) :
  P r -> Forall P d.*2 -> Forall P (od_set key r d).*2.
Proof.
  intros Hr. induction d as [|[k v] d IH]; simpl; intros Hd.
  - by repeat constructor.
  - inversion Hd; subst. case_decide; simpl; constructor; auto.
Qed.

Lemma copy_refs_ok f :
  copy_ok n f ->
  forall rs h memo h' memo' rs',
    n <= length h -> memo_ok n h memo -> closed n h ->
    copy_refs f h memo rs = Some (h', memo', rs') ->
    keeps n h h' /\ memo_ok n h' memo' /\ Forall (fresh_ref n) rs'.
Proof.
  intros Hf. induction rs as [|r rs IH]; simpl; intros h memo h' memo' rs' Hn Hm Hc H.
  - injection H as <- <- <-. split_and!; [by apply keeps_refl|done|constructor].
  - destruct (f h memo r) as [[[h1 memo1] r1]|] eqn:Hr; [|done].
    destruct (copy_refs f h1 memo1 rs) as [[[h2 memo2] rs2]|] eqn:Hrs; [|done].
    injection H as <- <- <-.
    destruct (Hf _ _ _ _ _ _ Hn Hm Hc Hr) as (Hk1 & Hm1 & Hr1 & _).
    destruct (IH _ _ _ _ _ (Nat.le_trans _ _ _ Hn (proj1 Hk1)) Hm1 (proj1 (proj2 (proj2 Hk1))) Hrs)
      as (Hk2 & Hm2 & Hrs2).
    split_and!; [by eapply keeps_trans|done|by constructor].
Qed.

Lemma deepcopy_ref_ok fuel : copy_ok n (deepcopy_ref fuel).
Proof.
  induction fuel as [|fuel IH]; intros h memo r h' memo' r' Hn Hm Hc H;
    (destruct r as [v|l]; simpl in H;
     [injection H as <- <- <-; split_and!; [by apply keeps_refl|done|done|done]|]);
    (destruct (memo !! l) as [l'|] eqn:Hl;
     [injection H as <- <- <-; destruct (Hm _ _ Hl) as (? & ? & Hd);
      split_and!; [by apply keeps_refl|done|done|];
      intros ? [= <-] ?; exists l'; split; [done|by apply Hd]|]);
    [done|].
  destruct (h !! l) as [[d|rs|s]|] eqn:Ho; [| | |done];
    pose proof (lookup_lt_Some _ _ _ Ho) as Hlt.
  - destruct (copy_refs _ _ _ _) as [[[h1 memo1] rs']|] eqn:Hcopy; [|done].
    injection H as <- <- <-.
    assert (keeps n h (h ++ [ODict []])) as Hk0 by (apply keeps_alloc; [done..|by intros d' [= <-]]).
    assert ((h ++ [ODict []])%list !! length h = Some (ODict [])) as Hnew.
    { rewrite lookup_app_r by lia. by rewrite Nat.sub_diag. }
    apply (copy_refs_ok _ IH) in Hcopy as (Hk1 & Hm1 & Hrs');
      [|rewrite length_app; simpl; lia| |apply Hk0].
    2:{ apply memo_ok_insert; [done|rewrite length_app; simpl; lia| |by eapply memo_ok_keeps].
        intros _. by eexists. }
    destruct (proj2 (proj2 (proj2 Hk1)) _ _ Hnew) as ([d1| |] & Hnew1 & Hs1); [|done..].
    assert (keeps n h1 (<[length h := ODict (zip d.*1 rs')]> h1)) as Hk2.
    { eapply keeps_insert; [done|apply Hk1|exact Hnew1|done|].
      intros d' [= <-]. by apply Forall_snd_zip. }
    split_and!.
    + eapply keeps_trans; [exact Hk0|]. by eapply keeps_trans.
    + by eapply memo_ok_keeps.
    + simpl. lia.
    + intros ? [= <-] _. eexists. split; [done|]. eexists.
      apply list_lookup_insert_eq. by eapply lookup_lt_Some.
  - destruct (copy_refs _ _ _ _) as [[[h1 memo1] rs']|] eqn:Hcopy; [|done].
    injection H as <- <- <-.
    assert (keeps n h (h ++ [OList []])) as Hk0 by (apply keeps_alloc; done).
    assert ((h ++ [OList []])%list !! length h = Some (OList [])) as Hnew.
    { rewrite lookup_app_r by lia. by rewrite Nat.sub_diag. }
    apply (copy_refs_ok _ IH) in Hcopy as (Hk1 & Hm1 & Hrs');
      [|rewrite length_app; simpl; lia| |apply Hk0].
    2:{ apply memo_ok_insert; [done|rewrite length_app; simpl; lia| |by eapply memo_ok_keeps].
        intros [d' Hd']. rewrite lookup_app_l in Hd' by done. congruence. }
    destruct (proj2 (proj2 (proj2 Hk1)) _ _ Hnew) as ([|l1|] & Hnew1 & Hs1); [done| |done].
    assert (keeps n h1 (<[length h := OList rs']> h1)) as Hk2.
    { eapply keeps_insert; [done|apply Hk1|exact Hnew1|done|done]. }
    split_and!.
    + eapply keeps_trans; [exact Hk0|]. by eapply keeps_trans.
    + by eapply memo_ok_keeps.
    + simpl. lia.
    + intros ? [= <-] [d' Hd']. congruence.
  - injection H as <- <- <-.
    assert (keeps n h (h ++ [OSet s])) as Hk0 by (apply keeps_alloc; done).
    split_and!; [done| |simpl; lia|].
    + apply memo_ok_insert; [done|rewrite length_app; simpl; lia| |by eapply memo_ok_keeps].
      intros [d' Hd']. rewrite lookup_app_l in Hd' by done. congruence.
    + intros ? [= <-] [d' Hd']. congruence.
Qed.


Lemma store_copy_ok fuel h target key sv h' :
  n <= target -> n <= length h -> closed n h ->
  store_copy fuel h target key sv = Some h' -> keeps n h h'.
Proof.
  intros Ht Hn Hc H. unfold store_copy, deepcopy in H.
  destruct (deepcopy_ref fuel h ∅ sv) as [[[h1 memo1] r']|] eqn:Hcopy; [|done].
  apply deepcopy_ref_ok in Hcopy as (Hk1 & _ & Hr' & _); [|done|apply memo_ok_empty|done].
  destruct (h1 !! target) as [[dt| |]|] eqn:Hdt; [|done..]. injection H as <-.
  eapply keeps_trans; [exact Hk1|]. eapply keeps_insert; [done|apply Hk1|exact Hdt|done|].
  intros d' [= <-]. apply Forall_snd_od_set; [done|].
  exact (proj1 (proj2 (proj2 Hk1)) target dt Ht Hdt).
Qed.

Ltac store_copy_case :=
  eapply store_copy_ok; [| | |eassumption]; assumption.

Lemma fold_items_ok (f : heap -> string * ref -> option heap) :
  (forall h item h', n <= length h -> closed n h -> f h item = Some h' -> keeps n h h') ->
  forall items h h', n <= length h -> closed n h ->
    fold_items f h items = Some h' -> keeps n h h'.
Proof.
  intros Hf. induction items as [|item items IH]; simpl; intros h h' Hn Hc H.
  - injection H as <-. by apply keeps_refl.
  - destruct (f h item) as [h1|] eqn:Hitem; [|done].
    pose proof (Hf _ _ _ Hn Hc Hitem) as Hk1.
    eapply keeps_trans; [exact Hk1|]. apply IH; [|apply Hk1|done].
    destruct Hk1. lia.
Qed.

Lemma od_get_elem {V} key (d : list (string * V)) v : od_get key d = Some v -> v ∈ d.*2.
Proof.
  induction d as [|[k x] d IH]; simpl; [done|]. case_decide.
  - intros [= ->]. left.
  - intros Hget. right. auto.
Qed.

(** A container found under a key of a closed dictionary is allocated at [n]
    or later. *)
Lemma closed_lookup h target dt key l :
  n <= target -> closed n h -> h !! target = Some (ODict dt) ->
  od_get key dt = Some (RLoc l) -> n <= l.
Proof.
  intros Ht Hc Hdt Hget. specialize (Hc _ _ Ht Hdt).
  rewrite list.Forall_forall in Hc. by apply (Hc (RLoc l)), od_get_elem with key.
Qed.

Lemma merge_item_ok rec fuel target :
  merge_ok n rec -> n <= target ->
  forall h item h', n <= length h -> closed n h ->
    merge_item rec fuel target h item = Some h' -> keeps n h h'.
Proof.
  intros Hrec Ht h [key sv] h' Hn Hc H. unfold merge_item in H.
  destruct (h !! target) as [[dt| |]|] eqn:Hdt; [|done..].
  destruct (od_get key dt) as [[v|lt]|] eqn:Hget; [store_copy_case| |store_copy_case].
  pose proof (closed_lookup _ _ _ _ _ Ht Hc Hdt Hget) as Hlt.
  destruct (h !! lt) as [[d|xs|xs]|] eqn:Hlt'; destruct sv as [v|ls];
    try store_copy_case.
  - destruct (h !! ls) as [[?|?|?]|]; try store_copy_case.
    by apply (Hrec _ _ _ _ Hlt Hn Hc H).
  - destruct (h !! ls) as [[?|ys|?]|]; try store_copy_case.
    injection H as <-. by eapply keeps_insert.
  - destruct (h !! ls) as [[?|?|ys]|]; try store_copy_case.
    injection H as <-. by eapply keeps_insert.
Qed.

Lemma deep_merge_ok fuel : merge_ok n (deep_merge fuel).
Proof.
  induction fuel as [|fuel IH]; intros h target source h' Ht Hn Hc H; simpl in H; [done|].
  destruct (h !! source) as [[ds| |]|] eqn:Hs; [|done..].
  eapply fold_items_ok; [|exact Hn|exact Hc|exact H].
  intros h0 item h0' Hn0 Hc0 H0. by apply (merge_item_ok _ _ _ IH Ht _ _ _ Hn0 Hc0 H0).
Qed.

Lemma add_item_ok rec fuel add_to :
  merge_ok n (fun h add_to to_add => rec h to_add add_to) ->
  n <= add_to ->
  forall h item h', n <= length h -> closed n h ->
    add_item rec fuel add_to h item = Some h' -> keeps n h h'.
Proof.
  intros Hrec Ht h [bk bv] h' Hn Hc H. unfold add_item in H.
  destruct (h !! add_to) as [[dt| |]|] eqn:Hdt; [|done..].
  destruct (od_get bk dt) as [[v|av]|] eqn:Hget; [store_copy_case| |store_copy_case].
  pose proof (closed_lookup _ _ _ _ _ Ht Hc Hdt Hget) as Hav.
  destruct bv as [v|lb]; [store_copy_case|].
  destruct (h !! av) as [[?|?|?]|]; try store_copy_case.
  destruct (h !! lb) as [[?|?|?]|]; try store_copy_case.
  by apply (Hrec _ _ _ _ Hav Hn Hc H).
Qed.

(** [add] only writes to [self._dict] and to the dictionaries reached from
    its target, when both are allocated at [n] or later. *)
Lemma add_ok fuel self_dict :
  n <= self_dict ->
  forall h to_add add_to h',
    n <= add_to -> n <= length h -> closed n h ->
    add fuel self_dict h to_add add_to = Some h' -> keeps n h h'.
Proof.
  intros Hself. induction fuel as [|fuel IH]; intros h to_add add_to h' Ht Hn Hc H;
    simpl in H; [done|].
  destruct (h !! to_add) as [[items| |]|] eqn:Hs; [|done..].
  eapply fold_items_ok; [|exact Hn|exact Hc|exact H].
  intros h0 item h0' Hn0 Hc0 H0. eapply add_item_ok; [| |exact Hn0|exact Hc0|exact H0].
  - intros h1 target source h1' Ht1 Hn1 Hc1 H1. by apply (IH _ _ _ _ Ht1 Hn1 Hc1 H1).
  - by destruct (h !! add_to) as [[[|? ?]| |]|].
Qed.

Lemma iadd_ok fuel h self other h' :
  n <= i_dict self -> n <= i_data self -> n <= length h -> closed n h ->
  __iadd__ fuel h self other = Some h' -> keeps n h h'.
Proof.
  intros Hd Hdt Hn Hc H. unfold __iadd__ in H.
  destruct (deep_merge fuel h (i_data self) (i_data other)) as [h1|] eqn:Hm; [|done].
  apply deep_merge_ok in Hm; [|done..].
  eapply keeps_trans; [exact Hm|].
  eapply add_ok; [exact Hd|exact Hd| |apply Hm|exact H]. destruct Hm. lia.
Qed.
End Frame.

(** ** Accumulation: an addition returns *)

Section Total.
Context (rank : loc -> nat) (h0 : heap) (Hord : ordered rank h0).
Local Abbreviation n := (length h0).

Lemma extends_keeps h h' : extends n h0 h -> keeps n h h' -> extends n h0 h'.
Proof.
  intros (Hn & Ha & Hc) (Hlen & Ha' & Hc' & _). split_and!; [lia| |done].
  intros l Hl. by rewrite Ha', Ha.
Qed.

Lemma extends_lookup h l : extends n h0 h -> l < n -> h !! l = h0 !! l.
Proof. intros (_ & Ha & _) Hl. by apply Ha. Qed.

Lemma old_refs l o k :
  h0 !! l = Some o -> rank l <= k -> Forall (old_below rank n k) (refs_of o).
Proof.
  intros Ho Hk. apply list.Forall_forall. intros [v|l'] Hr; [done|].
  destruct (Hord _ _ _ Ho Hr). simpl. lia.
Qed.

Lemma copy_refs_total f k :
  copy_ok n f ->
  (forall h memo r, old_below rank n k r -> extends n h0 h -> memo_ok n h memo ->
                    is_Some (f h memo r)) ->
  forall rs h memo, Forall (old_below rank n k) rs -> extends n h0 h -> memo_ok n h memo ->
                    is_Some (copy_refs f h memo rs).
Proof.
  intros Hok Hf. induction rs as [|r rs IH]; simpl; intros h memo Hrs He Hm; [done|].
  apply Forall_cons in Hrs as [Hr0 Hrs].
  destruct (Hf h memo r) as [[[h1 memo1] r1] Hr]; [done..|]. rewrite Hr.
  destruct (Hok _ _ _ _ _ _ (proj1 He) Hm (proj2 (proj2 He)) Hr) as (Hk1 & Hm1 & _).
  destruct (IH h1 memo1) as [[[h2 memo2] rs2] Hrs2]; [done|by eapply extends_keeps|done|].
  by rewrite Hrs2.
Qed.

Lemma deepcopy_ref_total fuel h memo r :
  old_below rank n fuel r -> extends n h0 h -> memo_ok n h memo ->
  is_Some (deepcopy_ref fuel h memo r).
Proof.
  revert h memo r. induction fuel as [|fuel IH]; intros h memo [v|l] Hr He Hm; simpl;
    try done; destruct Hr as [Hl Hrank]; [lia|].
  destruct (memo !! l) as [l'|] eqn:Hmemo; [done|].
  rewrite (extends_lookup _ _ He Hl).
  destruct (lookup_lt_is_Some_2 h0 l) as [o Ho]; [lia|]. rewrite Ho.
  pose proof (old_refs _ _ fuel Ho ltac:(lia)) as Hrefs.
  assert (l < length h) as Hlt by (destruct He; lia).
  assert (h !! l = Some o) as Ho' by (by rewrite (extends_lookup _ _ He Hl)).
  destruct o as [d|rs|s]; simpl in Hrefs; [| |done].
  - destruct (copy_refs_total (deepcopy_ref fuel) fuel (deepcopy_ref_ok n fuel) IH d.*2
                (h ++ [ODict []]) (<[l := length h]> memo)) as [[[h1 memo1] rs'] ->];
      [done| | |done].
    + eapply extends_keeps; [done|]. apply keeps_alloc; [apply He..|by intros ? [= <-]].
    + apply memo_ok_insert; [apply He|rewrite length_app; simpl; lia| |].
      * intros _. exists []. rewrite lookup_app_r by lia. by rewrite Nat.sub_diag.
      * eapply memo_ok_keeps; [done|]. apply keeps_alloc; [apply He..|by intros ? [= <-]].
  - destruct (copy_refs_total (deepcopy_ref fuel) fuel (deepcopy_ref_ok n fuel) IH rs
                (h ++ [OList []]) (<[l := length h]> memo)) as [[[h1 memo1] rs'] ->];
      [done| | |done].
    + eapply extends_keeps; [done|]. apply keeps_alloc; [apply He..|done].
    + apply memo_ok_insert; [apply He|rewrite length_app; simpl; lia| |].
      * intros [d' Hd']. rewrite lookup_app_l in Hd' by done. congruence.
      * eapply memo_ok_keeps; [done|]. apply keeps_alloc; [apply He..|done].
Qed.

Lemma store_copy_total fuel h target key sv :
  old_below rank n fuel sv -> extends n h0 h -> is_dict h target ->
  is_Some (store_copy fuel h target key sv).
Proof.
  intros Hsv He Ht. unfold store_copy, deepcopy.
  destruct (deepcopy_ref_total fuel h ∅ sv) as [[[h1 m1] r'] Hcopy];
    [done|done|apply memo_ok_empty|].
  rewrite Hcopy.
  apply (deepcopy_ref_ok n) in Hcopy as (Hk1 & _); [|apply He|apply memo_ok_empty|apply He].
  destruct (kinds_kept_is_dict h h1 target) as [dt ->]; [apply Hk1|done|]. done.
Qed.

Lemma fold_items_total (P : heap -> Prop) (f : heap -> string * ref -> option heap) items :
  (forall h item, item ∈ items -> P h -> is_Some (f h item)) ->
  (forall h item h', P h -> f h item = Some h' -> P h') ->
  forall h, P h -> is_Some (fold_items f h items).
Proof.
  intros Hf Hp. induction items as [|item items IH]; simpl; intros h Hh; [done|].
  destruct (Hf h item) as [h1 Hitem]; [left|done|]. rewrite Hitem.
  apply IH; [|by eapply Hp]. intros h2 item2 Hin. apply Hf. by right.
Qed.

Lemma old_item source ds key sv fuel :
  h0 !! source = Some (ODict ds) -> rank source <= fuel -> (key, sv) ∈ ds ->
  old_below rank n fuel sv.
Proof.
  intros Hds Hr Hin. pose proof (old_refs _ _ fuel Hds Hr) as Hall. simpl in Hall.
  rewrite list.Forall_forall in Hall. apply Hall.
  apply list_elem_of_fmap. by exists (key, sv).
Qed.

Lemma merge_item_total (rec : heap -> loc -> loc -> option heap) fuel target source ds h key sv :
  h0 !! source = Some (ODict ds) -> rank source <= fuel -> (key, sv) ∈ ds ->
  (forall lt ls, old_below rank n fuel (RLoc ls) -> is_dict h0 ls -> n <= lt ->
                 is_dict h lt -> is_Some (rec h lt ls)) ->
  n <= target -> is_dict h target -> extends n h0 h ->
  is_Some (merge_item rec fuel target h (key, sv)).
Proof.
  intros Hds Hr Hin Hrec Ht Hdt He.
  pose proof (old_item _ _ _ _ _ Hds Hr Hin) as Hsv.
  pose proof (store_copy_total fuel h target key sv Hsv He Hdt) as Hstore.
  unfold merge_item. destruct Hdt as [dt Hdt]. rewrite Hdt.
  destruct (od_get key dt) as [[v|lt]|] eqn:Hget; [done| |done].
  pose proof (closed_lookup n _ _ _ _ _ Ht (proj2 (proj2 He)) Hdt Hget) as Hlt.
  destruct (h !! lt) as [[d|xs|xs]|] eqn:Hl, sv as [v|ls]; try done;
    destruct (h !! ls) as [[d'|ys|ys]|] eqn:Hs; try done.
  apply Hrec; [done| |done|by exists d].
  exists d'. destruct Hsv as [Hls _]. by rewrite <- (extends_lookup _ _ He Hls).
Qed.

Lemma deep_merge_total fuel h target source :
  old_below rank n fuel (RLoc source) -> is_dict h0 source -> n <= target ->
  is_dict h target -> extends n h0 h ->
  is_Some (deep_merge fuel h target source).
Proof.
  revert h target source.
  induction fuel as [|fuel IH]; intros h target source [Hs Hr] [ds Hds] Ht Hdt He; [lia|].
  simpl. rewrite (extends_lookup _ _ He Hs), Hds.
  apply (fold_items_total (fun h => extends n h0 h /\ is_dict h target)); [| |done].
  - intros h1 [key sv] Hin [He1 Hdt1].
    eapply merge_item_total; [exact Hds|lia|exact Hin| |done..].
    intros lt ls Hls Hd Hlt Hdlt. by apply IH.
  - intros h1 item h1' [He1 Hdt1] Hstep.
    pose proof (merge_item_ok n _ _ _ (deep_merge_ok n fuel) Ht h1 item h1'
                  (proj1 He1) (proj2 (proj2 He1)) Hstep) as Hk.
    split; [by eapply extends_keeps|]. eapply kinds_kept_is_dict; [apply Hk|done].
Qed.

Lemma add_item_total (rec : heap -> loc -> loc -> option heap) fuel add_to to_add items h bk bv :
  h0 !! to_add = Some (ODict items) -> rank to_add <= fuel -> (bk, bv) ∈ items ->
  (forall lb av, old_below rank n fuel (RLoc lb) -> is_dict h0 lb -> n <= av ->
                 is_dict h av -> is_Some (rec h lb av)) ->
  n <= add_to -> is_dict h add_to -> extends n h0 h ->
  is_Some (add_item rec fuel add_to h (bk, bv)).
Proof.
  intros Hds Hr Hin Hrec Ht Hdt He.
  pose proof (old_item _ _ _ _ _ Hds Hr Hin) as Hbv.
  pose proof (store_copy_total fuel h add_to bk bv Hbv He Hdt) as Hstore.
  unfold add_item. destruct Hdt as [dt Hdt]. rewrite Hdt.
  destruct (od_get bk dt) as [[v|av]|] eqn:Hget; [by destruct bv| |by destruct bv].
  destruct bv as [v|lb]; [done|].
  pose proof (closed_lookup n _ _ _ _ _ Ht (proj2 (proj2 He)) Hdt Hget) as Hav.
  destruct (h !! av) as [[d|xs|xs]|] eqn:Hl; try done;
    destruct (h !! lb) as [[d'|ys|ys]|] eqn:Hs; try done.
  apply Hrec; [done| |done|by exists d].
  exists d'. destruct Hbv as [Hlb _]. by rewrite <- (extends_lookup _ _ He Hlb).
Qed.

Lemma add_total fuel self_dict h to_add add_to :
  n <= self_dict -> is_dict h self_dict ->
  old_below rank n fuel (RLoc to_add) -> is_dict h0 to_add -> n <= add_to ->
  is_dict h add_to -> extends n h0 h ->
  is_Some (add fuel self_dict h to_add add_to).
Proof.
  intros Hself. revert h to_add add_to.
  induction fuel as [|fuel IH]; intros h to_add add_to Hsd [Hs Hr] [ds Hds] Ht Hdt He; [lia|].
  simpl. rewrite (extends_lookup _ _ He Hs), Hds.
  set (add_to' := match h !! add_to with Some (ODict []) => self_dict | _ => add_to end).
  assert (n <= add_to' /\ is_dict h add_to') as [Ht' Hdt'].
  { unfold add_to'. destruct (h !! add_to) as [[[|]| |]|]; done. }
  assert (merge_ok n (fun h add_to to_add => add fuel self_dict h to_add add_to)) as Hok.
  { intros h1 t s h1' Ht1 Hn1 Hc1 H. exact (add_ok n fuel self_dict Hself h1 s t h1' Ht1 Hn1 Hc1 H). }
  apply (fold_items_total
           (fun h => extends n h0 h /\ is_dict h self_dict /\ is_dict h add_to'));
    [| |done].
  - intros h1 [bk bv] Hin (He1 & Hsd1 & Hdt1).
    eapply add_item_total; [exact Hds|lia|exact Hin| |done..].
    intros lb av Hlb Hd Hav Hdav. by apply IH.
  - intros h1 item h1' (He1 & Hsd1 & Hdt1) Hstep.
    pose proof (add_item_ok n _ _ _ Hok Ht' h1 item h1'
                  (proj1 He1) (proj2 (proj2 He1)) Hstep) as Hk.
    split_and!; [by eapply extends_keeps|..]; (eapply kinds_kept_is_dict; [apply Hk|done]).
Qed.

Lemma iadd_total fuel h self other :
  n <= i_dict self -> is_dict h (i_dict self) -> n <= i_data self -> is_dict h (i_data self) ->
  old_below rank n fuel (RLoc (i_dict other)) -> is_dict h0 (i_dict other) ->
  old_below rank n fuel (RLoc (i_data other)) -> is_dict h0 (i_data other) ->
  extends n h0 h ->
  is_Some (__iadd__ fuel h self other).
Proof.
  intros Hd Hdd Ht Hdt Hod Hodd Hot Hodt He. unfold __iadd__.
  destruct (deep_merge_total fuel h (i_data self) (i_data other)) as [h1 Hm]; [done..|].
  rewrite Hm. apply (deep_merge_ok n) in Hm; [|done|apply He..].
  apply add_total; [done| |done|done|done| |by eapply extends_keeps];
    (eapply kinds_kept_is_dict; [apply Hm|done]).
Qed.

End Total.

Lemma rank_bound (rank : loc -> nat) k : exists fuel, forall l, l < k -> rank l < fuel.
Proof.
  induction k as [|k [fuel IH]]; [exists 0; lia|].
  exists (fuel `max` S (rank k)). intros l Hl.
  destruct (decide (l = k)) as [->|]; [lia|]. specialize (IH l). lia.
Qed.

Lemma extends_refl h : extends (length h) h h.
Proof.
  split_and!; [done|done|]. intros l d Hl Hd. apply lookup_lt_Some in Hd. lia.
Qed.

Lemma is_dict_lt h l : is_dict h l -> l < length h.
Proof. intros [d Hd]. by apply lookup_lt_Some in Hd. Qed.

(** Whatever the fuel, an addition that returns has changed no container of
    the store it started from. *)
Lemma add_frame fuel h a b h' c :
  __add__ fuel h a b = Some (h', c) ->
  agree (length h) h h'
  /\ length h <= i_dict c /\ length h <= i_data c
  /\ closed (length h) h'.
Proof.
  unfold __add__. intros H.
  pose proof (extends_refl h) as (_ & _ & Hc0).
  destruct (deepcopy_ref fuel h ∅ (RLoc (i_dict a))) as [[[h1 memo1] [v|d]]|] eqn:H1;
    [done| |done].
  apply (deepcopy_ref_ok (length h)) in H1 as (Hk1 & Hm1 & Hd & _);
    [|done|apply memo_ok_empty|done].
  destruct (deepcopy_ref fuel h1 memo1 (RLoc (i_data a))) as [[[h2 memo2] [v|dt]]|] eqn:H2;
    [done| |done].
  apply (deepcopy_ref_ok (length h)) in H2 as (Hk2 & Hm2 & Hdt & _);
    [|apply Hk1|done|apply Hk1].
  destruct (__iadd__ fuel h2 _ b) as [h3|] eqn:H3; [|done]. injection H as <- <-.
  apply (iadd_ok (length h)) in H3; [|done|done| |apply Hk2].
  2:{ destruct Hk1, Hk2. lia. }
  pose proof (keeps_trans _ _ _ _ (keeps_trans _ _ _ _ Hk1 Hk2) H3) as (_ & Ha & Hc & _).
  done.
Qed.

(** On a store without cycles and with the four dictionaries in place, an
    addition with fuel above every rank returns. *)
Lemma add_returns rank fuel h a b :
  ordered rank h -> (forall l, l < length h -> rank l < fuel) ->
  is_dict h (i_dict a) -> is_dict h (i_data a) ->
  is_dict h (i_dict b) -> is_dict h (i_data b) ->
  is_Some (__add__ fuel h a b).
Proof.
  intros Hord Hfuel Had Hat Hbd Hbt. unfold __add__.
  pose proof (extends_refl h) as He.
  assert (forall l, is_dict h l -> old_below rank (length h) fuel (RLoc l)) as Hold.
  { intros l Hl. apply is_dict_lt in Hl. split; [done|by apply Hfuel]. }
  destruct (deepcopy_ref_total rank h Hord fuel h ∅ (RLoc (i_dict a)))
    as [[[h1 memo1] r1] H1]; [by apply Hold|done|apply memo_ok_empty|].
  rewrite H1.
  apply (deepcopy_ref_ok (length h)) in H1 as (Hk1 & Hm1 & Hf1 & Hd1);
    [|apply He|apply memo_ok_empty|apply He].
  destruct (Hd1 _ eq_refl Had) as (d & -> & Hd). simpl in Hf1.
  pose proof (extends_keeps h _ _ He Hk1) as He1.
  destruct (deepcopy_ref_total rank h Hord fuel h1 memo1 (RLoc (i_data a)))
    as [[[h2 memo2] r2] H2]; [by apply Hold|done|done|].
  rewrite H2.
  apply (deepcopy_ref_ok (length h)) in H2 as (Hk2 & Hm2 & Hf2 & Hd2);
    [|apply He1|done|apply He1].
  destruct (Hd2 _ eq_refl) as (dt & -> & Hdt); [by eapply kinds_kept_is_dict; [apply Hk1|]|].
  simpl in Hf2.
  pose proof (extends_keeps h _ _ He1 Hk2) as He2.
  destruct (iadd_total rank h Hord fuel h2
              {| i_dict := d; i_data := dt |} b) as [h3 ->]; simpl; try done; [|by apply Hold..].
  eapply kinds_kept_is_dict; [apply Hk2|done].
Qed.


Lemma c10_heap_ordered : ordered id c10_heap.
Proof.
  intros l o l' Hl Hin. unfold id. change (length c10_heap) with 12.
  unfold c10_heap in Hl.
  repeat (destruct l as [|l];
          [injection Hl as <-; simpl in Hin;
           repeat (apply elem_of_cons in Hin as [Heq|Hin];
                   [try discriminate Heq; injection Heq as ->; lia|]);
           by apply elem_of_nil in Hin|]).
  done.
Qed.


